(** * Page specifications: [app/pagespec.py]

    A shallow embedding of the page-specification parser [parse_pagespec]
    and of the keep-list resolver [pages_to_keep], followed by the
    properties of the two functions. After them come the functions of
    [app/pdf_ops.py] and the helpers of [app/main.py] that can be read as
    functions of their arguments: [sanitize_filename], [is_valid_pdf],
    [open_pdf], [merge_pdfs], [delete_pages], [extract_pages],
    [validate_upload_file], [get_client_ip] and [check_rate_limit]. The
    HTTP endpoints themselves are not modelled.

    Modelling choices.
    - A Python [str] is a [string] whose characters are code points below
      256. On that range the white space removed by [str.strip] and the
      decimal digits read by [int] are exactly those of [Py.isspace] and
      [Py.digit_value].
    - Python integers are unbounded: page numbers and [total_pages] are [Z].
    - The local [set] of pages is a [gset Z]; [sorted] of a set of integers
      is the ascending list of its elements.
    - [raise] is the [Raise] constructor of [result]; an error constructor
      carries the values the source formats into the message.
    - [int] is modelled with the interpreter's default cap of 4300 digits
      on a literal, beyond which it raises [ValueError]; the program does
      not change that setting.
    - A [bytes] object and the content of a file are lists of bytes; a
      document opened by the PDF library is the list of its pages, and the
      library enters through two functions taken as parameters. *)

From Stdlib Require Import ZArith String Ascii List Lia.
From Stdlib.Strings Require Import Byte.
From stdpp Require Import base decidable option numbers list sets gmap strings sorting pretty.

Local Open Scope string_scope.
Local Open Scope Z_scope.
Set Warnings "-clear-no-such-hyp".

(** ** Results and exceptions *)

Inductive result (E A : Type) : Type :=
| Ok (a : A)
| Raise (e : E).
Arguments Ok {E A} a.
Arguments Raise {E A} e.

(** One constructor per [raise PageSpecError(...)] site of the module. *)
Inductive PageSpecError : Type :=
| EmptySpecification                            (* "Page specification cannot be empty" *)
| InvalidRangeFormat (part : string)            (* "Invalid range format: '{part}'" *)
| InvalidNumbersInRange (part : string)         (* "Invalid numbers in range: '{part}'" *)
| RangeNotPositive (part : string)              (* "Page numbers must be positive (found in '{part}')" *)
| RangeStartGreaterThanEnd (start stop : Z)     (* "Range start cannot be greater than end: {start}-{end}" *)
| PageExceedsTotal (page total_pages : Z)       (* "Page {page} exceeds total pages ({total_pages})" *)
| InvalidPageNumber (part : string)             (* "Invalid page number: '{part}'" *)
| PageNotPositive (page : Z)                    (* "Page number must be positive: {page}" *)
| NoValidPages                                  (* "No valid pages found in specification" *)
| CannotDeleteAllPages.                         (* "Cannot delete all pages from PDF" *)

(** What [pages_to_keep] can raise: the module's own validation error, or
    the builtin [ValueError] ("Invalid mode: {mode}"). *)
Inductive exn : Type :=
| RaisedPageSpecError (e : PageSpecError)
| RaisedValueError (mode : string).

(** A [for] loop whose body may raise: the first exception ends the loop. *)
Fixpoint for_each {S X E : Type} (body : S -> X -> result E S) (st : S) (xs : list X)
  : result E S :=
  match xs with
  | [] => Ok st
  | x :: xs' =>
      match body st x with
      | Ok st' => for_each body st' xs'
      | Raise e => Raise e
      end
  end.

(** ** The string builtins used by the module *)

Module Py.

Definition code (c : ascii) : N := N_of_ascii c.

(** [str.isspace] on one character: TAB..CR, FS..US, space, NEL, NBSP. *)
Definition isspace (c : ascii) : bool :=
  ((9 <=? code c) && (code c <=? 13) || (28 <=? code c) && (code c <=? 32)
   || (code c =? 133) || (code c =? 160))%N.

Fixpoint lstrip (s : string) : string :=
  match s with
  | EmptyString => EmptyString
  | String c s' => if isspace c then lstrip s' else s
  end.

Fixpoint rstrip (s : string) : string :=
  match s with
  | EmptyString => EmptyString
  | String c s' =>
      match rstrip s' with
      | EmptyString => if isspace c then EmptyString else String c EmptyString
      | r => String c r
      end
  end.

(** [s.strip()] *)
Definition strip (s : string) : string := rstrip (lstrip s).

(** [not s] for a string *)
Definition is_empty (s : string) : bool :=
  match s with
  | EmptyString => true
  | String _ _ => false
  end.

(** [s.split(sep)] for a one-character separator: never an empty list. *)
Fixpoint split (sep : ascii) (s : string) : list string :=
  match s with
  | EmptyString => [EmptyString]
  | String c s' =>
      if Ascii.eqb c sep then EmptyString :: split sep s'
      else match split sep s' with
           | [] => [String c EmptyString]
           | h :: t => String c h :: t
           end
  end.

(** [sep in s] for a one-character [sep] *)
Fixpoint contains (sep : ascii) (s : string) : bool :=
  match s with
  | EmptyString => false
  | String c s' => Ascii.eqb c sep || contains sep s'
  end.

Definition digit_value (c : ascii) : option Z :=
  if ((48 <=? code c) && (code c <=? 57))%N then Some (Z.of_N (code c - 48)) else None.

(** White space as [int] sees it: the C locale's, and the non-ASCII white
    space that the conversion first rewrites to a blank. *)
Definition int_isspace (c : ascii) : bool :=
  ((9 <=? code c) && (code c <=? 13) || (code c =? 32)
   || (code c =? 133) || (code c =? 160))%N.

Fixpoint skip_space (s : string) : string :=
  match s with
  | EmptyString => EmptyString
  | String c s' => if int_isspace c then skip_space s' else s
  end.

Inductive scanned : Type := Nothing | Digit | Underscore.

(** The cap on the number of digits of a literal that [int] converts:
    [sys.int_info.default_max_str_digits], which the program leaves as it
    is. A literal with more digits makes [int] raise [ValueError]. *)
Definition int_max_str_digits : Z := 4300.

(** The outcome of the scan of a well-formed literal with [digits] digits. *)
Definition within_digit_cap (digits : Z) (acc : Z) : option Z :=
  if int_max_str_digits <? digits then None else Some acc.

(** The digits of a base-10 literal: single underscores are allowed
    between digits only; after the digits only white space may follow.
    [digits] counts the digits read so far, leading zeros included and
    underscores not. *)
Fixpoint scan_digits (prev : scanned) (acc : Z) (digits : Z) (s : string) : option Z :=
  match s with
  | EmptyString =>
      match prev with
      | Digit => within_digit_cap digits acc
      | _ => None
      end
  | String c s' =>
      match digit_value c with
      | Some d => scan_digits Digit (10 * acc + d) (digits + 1) s'
      | None =>
          match prev with
          | Digit =>
              if Ascii.eqb c "_" then scan_digits Underscore acc digits s'
              else if is_empty (skip_space s) then within_digit_cap digits acc
                   else None
          | _ => None
          end
      end
  end.

(** [int(s)]; [None] stands for [ValueError]. *)
Definition int (s : string) : option Z :=
  match skip_space s with
  | String "+" r => scan_digits Nothing 0 0 r
  | String "-" r => Z.opp <$> scan_digits Nothing 0 0 r
  | r => scan_digits Nothing 0 0 r
  end.

(** [range(start, stop)] *)
Definition range (start stop : Z) : list Z := seqZ start (stop - start).

(** [sorted(s)] for a set of integers *)
Definition sorted (s : gset Z) : list Z := merge_sort Z.le (elements s).

(** *** Builtins used by [app/pdf_ops.py] and [app/main.py] *)

(** [l[-1]]; [IndexError] on an empty list is [None]. *)
Definition index_last (l : list string) : option string := last l.

(** [l[0]]; [IndexError] on an empty list is [None]. *)
Definition index_first (l : list string) : option string := head l.

(** [s.lstrip(chars)], [s.rstrip(chars)], [s.strip(chars)]: [chars] is the
    set of characters to remove. *)
Fixpoint lstrip_chars (chars : string) (s : string) : string :=
  match s with
  | EmptyString => EmptyString
  | String c s' => if contains c chars then lstrip_chars chars s' else s
  end.

Fixpoint rstrip_chars (chars : string) (s : string) : string :=
  match s with
  | EmptyString => EmptyString
  | String c s' =>
      match rstrip_chars chars s' with
      | EmptyString => if contains c chars then EmptyString else String c EmptyString
      | r => String c r
      end
  end.

Definition strip_chars (chars : string) (s : string) : string :=
  rstrip_chars chars (lstrip_chars chars s).

(** [str.isalnum] on one character: digits, letters, and below 256 also
    the ordinal indicators, the micro sign, superscript digits, fractions
    and the accented letters. *)
Definition isalnum (c : ascii) : bool :=
  ((48 <=? code c) && (code c <=? 57) || (65 <=? code c) && (code c <=? 90)
   || (97 <=? code c) && (code c <=? 122)
   || (code c =? 170) || (178 <=? code c) && (code c <=? 179) || (code c =? 181)
   || (185 <=? code c) && (code c <=? 186) || (188 <=? code c) && (code c <=? 190)
   || (192 <=? code c) && (code c <=? 214) || (216 <=? code c) && (code c <=? 246)
   || (248 <=? code c))%N.

(** The regular-expression classes [\w] and [\s] on one character. *)
Definition re_word (c : ascii) : bool := isalnum c || Ascii.eqb c "_".
Definition re_space (c : ascii) : bool := isspace c.

(** [re.sub(cls, repl, s)] for a pattern [cls] that matches one character
    and a one-character replacement. *)
Fixpoint re_sub_char (cls : ascii -> bool) (repl : ascii) (s : string) : string :=
  match s with
  | EmptyString => EmptyString
  | String c s' => String (if cls c then repl else c) (re_sub_char cls repl s')
  end.

(** [str.lower]: below 256 the capital letters, plain and accented, move
    up by 32; every other character is kept. *)
Definition lower_char (c : ascii) : ascii :=
  if ((65 <=? code c) && (code c <=? 90) || (192 <=? code c) && (code c <=? 214)
      || (216 <=? code c) && (code c <=? 222))%N
  then ascii_of_N (code c + 32) else c.

Fixpoint lower (s : string) : string :=
  match s with
  | EmptyString => EmptyString
  | String c s' => String (lower_char c) (lower s')
  end.

(** [s.endswith(suffix)] *)
Fixpoint endswith (s suffix : string) : bool :=
  String.eqb s suffix ||
  match s with
  | EmptyString => false
  | String _ s' => endswith s' suffix
  end.

End Py.

(** ** [parse_pagespec] *)

(** Body of [for page in range(start, end + 1)] (lines 75-79). *)
Definition add_range_page (total_pages : Z) (pages : gset Z) (page : Z)
  : result PageSpecError (gset Z) :=
  if total_pages <? page then Raise (PageExceedsTotal page total_pages)
  else Ok ({[page]} ∪ pages).

(** Body of [for part in parts] (lines 43-95). *)
Definition parse_part (total_pages : Z) (pages : gset Z) (part : string)
  : result PageSpecError (gset Z) :=
  let part := Py.strip part in
  if Py.is_empty part then Ok pages
  else if Py.contains "-" part then
    match Py.split "-" part with
    | [range_part0; range_part1] =>
        let start_str := Py.strip range_part0 in
        let end_str := Py.strip range_part1 in
        if Py.is_empty start_str || Py.is_empty end_str
        then Raise (InvalidRangeFormat part)
        else
          match Py.int start_str with
          | None => Raise (InvalidNumbersInRange part)
          | Some start =>
              match Py.int end_str with
              | None => Raise (InvalidNumbersInRange part)
              | Some stop =>
                  if (start <=? 0) || (stop <=? 0) then Raise (RangeNotPositive part)
                  else if stop <? start then Raise (RangeStartGreaterThanEnd start stop)
                  else for_each (add_range_page total_pages) pages
                                (Py.range start (stop + 1))
              end
          end
    | _ => Raise (InvalidRangeFormat part)
    end
  else
    match Py.int part with
    | None => Raise (InvalidPageNumber part)
    | Some page =>
        if page <=? 0 then Raise (PageNotPositive page)
        else if total_pages <? page then Raise (PageExceedsTotal page total_pages)
        else Ok ({[page]} ∪ pages)
    end.

Definition parse_pagespec (spec : string) (total_pages : Z)
  : result PageSpecError (list Z) :=
  if Py.is_empty spec || Py.is_empty (Py.strip spec) then Raise EmptySpecification
  else
    let spec := Py.strip spec in
    let parts := Py.split "," spec in
    match for_each (parse_part total_pages) ∅ parts with
    | Raise e => Raise e
    | Ok pages =>
        if decide (pages = ∅) then Raise NoValidPages
        else Ok (Py.sorted pages)
    end.

(** ** [pages_to_keep] *)

Definition pages_to_keep (spec : string) (total_pages : Z) (mode : string)
  : result exn (list Z) :=
  match parse_pagespec spec total_pages with
  | Raise e => Raise (RaisedPageSpecError e)
  | Ok specified_pages =>
      if String.eqb mode "extract" then Ok specified_pages
      else if String.eqb mode "delete" then
        let all_pages : gset Z := list_to_set (Py.range 1 (total_pages + 1)) in
        let specified_set : gset Z := list_to_set specified_pages in
        let keep_pages := all_pages ∖ specified_set in
        if decide (keep_pages = ∅) then Raise (RaisedPageSpecError CannotDeleteAllPages)
        else Ok (Py.sorted keep_pages)
      else Raise (RaisedValueError mode)
  end.

(** ** Notions used to state the properties *)

(** Every character of [s] satisfies [p]. *)
Fixpoint all_chars (p : ascii -> bool) (s : string) : bool :=
  match s with
  | EmptyString => true
  | String c s' => p c && all_chars p s'
  end.

(** The input is empty or made of white space only. *)
Definition whitespace_only (s : string) : Prop :=
  all_chars Py.isspace s = true.

(** The input is made of commas and white space only. *)
Definition commas_and_whitespace (s : string) : Prop :=
  all_chars (fun c => Ascii.eqb c "," || Py.isspace c) s = true.

(** The comma-separated tokens of a specification, as line 41 computes them. *)
Definition tokens (spec : string) : list string :=
  Py.split "," (Py.strip spec).

(** The token, once trimmed, is a single positive page number. *)
Definition names_page (part : string) (page : Z) : Prop :=
  Py.contains "-" (Py.strip part) = false /\
  Py.int (Py.strip part) = Some page /\
  0 < page.

(** The token, once trimmed, is [start-stop] with [0 < start <= stop]. *)
Definition names_range (part : string) (start stop : Z) : Prop :=
  exists a b : string,
    Py.split "-" (Py.strip part) = [a; b] /\
    Py.int (Py.strip a) = Some start /\
    Py.int (Py.strip b) = Some stop /\
    0 < start <= stop.

(** The token, once trimmed, has exactly two sides around one hyphen and
    neither side is empty after trimming. *)
Definition two_nonempty_sides (part : string) : Prop :=
  exists a b : string,
    Py.split "-" (Py.strip part) = [a; b] /\
    Py.strip a <> "" /\ Py.strip b <> "".

(** The pages a token names, in the order in which it names them, read off
    the text alone (no bound check); nothing for a token that is not a page
    number or a range. *)
Definition pages_named_by (part : string) : list Z :=
  let part := Py.strip part in
  if Py.contains "-" part then
    match Py.split "-" part with
    | [a; b] =>
        match Py.int (Py.strip a), Py.int (Py.strip b) with
        | Some start, Some stop => Py.range start (stop + 1)
        | _, _ => []
        end
    | _ => []
    end
  else
    match Py.int part with
    | Some page => [page]
    | None => []
    end.

(** The pages a specification names, token after token. *)
Definition pages_named (spec : string) : list Z :=
  concat (map pages_named_by (tokens spec)).

(** Keep the first occurrence of every value, in the order of the list. *)
Fixpoint first_occurrences (seen : list Z) (l : list Z) : list Z :=
  match l with
  | [] => []
  | x :: l' =>
      if decide (x ∈ seen) then first_occurrences seen l'
      else x :: first_occurrences (x :: seen) l'
  end.

(** The order the specification describes for extract mode: distinct
    named pages, each at the place where it is first named. *)
Definition first_occurrence_order (spec : string) : list Z :=
  first_occurrences [] (pages_named spec).

(** The number of decimal digits in a text. *)
Fixpoint count_digits (s : string) : Z :=
  match s with
  | EmptyString => 0
  | String c s' =>
      match Py.digit_value c with
      | Some _ => 1 + count_digits s'
      | None => count_digits s'
      end
  end.

(** A literal of [n] zeros followed by [last]. *)
Definition zeros_then (n : nat) (last : string) : string :=
  string_of_list_ascii (repeat "0"%char n) ++ last.

(** The exceptions the body of the token loop can raise. *)
Definition raised_by_token (e : PageSpecError) : Prop :=
  match e with
  | EmptySpecification | NoValidPages | CannotDeleteAllPages => False
  | _ => True
  end.

(** * The rest of the application *)

(** ** [sanitize_filename] ([app/pdf_ops.py], lines 221-246) *)

(** The pattern [[^\w\s\-\.]] of line 233 matches every character outside
    this class. *)
Definition filename_safe (c : ascii) : bool :=
  Py.re_word c || Py.re_space c || Ascii.eqb c "-" || Ascii.eqb c ".".

Definition sanitize_filename (filename : string) : option string :=
  after_backslash ← Py.index_last (Py.split "\" filename);
  filename ← Py.index_last (Py.split "/" after_backslash);
  let filename := Py.re_sub_char (fun c => negb (filename_safe c)) "_" filename in
  let filename := Py.strip_chars ". " filename in
  let filename := if Py.is_empty filename then "document.pdf" else filename in
  let filename :=
    if negb (Py.endswith (Py.lower filename) ".pdf") then filename ++ ".pdf"
    else filename in
  Some filename.

(** ** [is_valid_pdf] ([app/pdf_ops.py], lines 30-40) *)

(** A Python [bytes] object is a list of bytes. *)
Abbreviation bytes := (list byte).

#[global] Instance byte_eq_decision : EqDecision byte := Byte.byte_eq_dec.

(** [b"%PDF-"] *)
Definition PDF_MAGIC : bytes := [x25; x50; x44; x46; x2d].

Definition is_valid_pdf (file_data : bytes) : bool :=
  if (length file_data <? 5)%nat then false
  else bool_decide (take 5 file_data = PDF_MAGIC).

(** ** [validate_upload_file] ([app/main.py], lines 99-134)

    The upload is the value of its three attributes; [await file.read()]
    returns the whole content. The warning logged for a foreign MIME type
    has no effect on the result. *)

Definition MAX_FILE_SIZE : Z := 100 * 1024 * 1024.

Record UploadFile : Type := {
  upload_filename : option string;
  upload_content_type : option string;
  upload_content : bytes
}.

Record HTTPException : Type := {
  status_code : Z;
  detail : string
}.

Definition validate_upload_file (file : UploadFile) : result HTTPException bytes :=
  let content := upload_content file in
  if MAX_FILE_SIZE <? Z.of_nat (length content) then
    Raise {| status_code := 413;
             detail := "File too large. Maximum size is "
                       ++ pretty (MAX_FILE_SIZE `div` (1024 * 1024)) ++ " MB" |}
  else if (length content =? 0)%nat then
    Raise {| status_code := 400; detail := "Uploaded file is empty" |}
  else if (length content <? 5)%nat || negb (bool_decide (take 5 content = PDF_MAGIC)) then
    Raise {| status_code := 400;
             detail := "File is not a valid PDF (missing PDF header)" |}
  else Ok content.

(** ** [get_client_ip] ([app/main.py], lines 85-96)

    Of the request only the headers and the peer address are read;
    [headers.get(name)] is a lookup and [request.client], when present,
    carries the host. *)

Record Request : Type := {
  headers : gmap string string;
  client_host : option string
}.

Definition get_client_ip (request : Request) : option string :=
  let forwarded := headers request !! "X-Forwarded-For" in
  match forwarded with
  | Some (String c f) =>
      first ← Py.index_first (Py.split "," (String c f));
      Some (Py.strip first)
  | _ =>
      let real_ip := headers request !! "X-Real-IP" in
      match real_ip with
      | Some (String c r) => Some (String c r)
      | _ =>
          match client_host request with
          | Some host => Some host
          | None => Some "unknown"
          end
      end
  end.

(** ** [check_rate_limit] ([app/main.py], lines 62-82)

    The global [rate_tracker] is threaded through the call and [time()] is
    the argument [now]. Time stamps are floating-point numbers; their type
    and the test [now - t < RATE_WINDOW] are left open. *)

Definition RATE_LIMIT : nat := 30.

Section RateLimit.
Context {time : Type} (within_window : time -> time -> bool).

Definition check_rate_limit (rate_tracker : gmap string (list time))
           (now : time) (client_ip : string)
  : bool * gmap string (list time) :=
  let recent :=
    filter (fun t => within_window now t = true)
           (default [] (rate_tracker !! client_ip)) in
  let rate_tracker := <[client_ip := recent]> rate_tracker in
  if (RATE_LIMIT <=? length recent)%nat then (false, rate_tracker)
  else (true, <[client_ip := (recent ++ [now])%list]> rate_tracker).

End RateLimit.

(** ** [open_pdf], [merge_pdfs], [delete_pages], [extract_pages]
       ([app/pdf_ops.py], lines 43-218)

    A file object is the list of its bytes, read from position 0; every
    caller of [open_pdf] in the application passes a file object, and
    [open_pdf] is modelled on file objects. An open document is the list
    of its pages. [pikepdf.open] and the final save
    are the two calls into the library modelled as fallible, by the
    functions [pikepdf_open] and [pikepdf_save]; creating a document,
    appending a page and closing are taken not to raise. Log output is
    left out. *)

(** What [pikepdf.open] may raise: [pikepdf.PdfError] or anything else,
    with the text of the exception. *)
Inductive pikepdf_failure : Type :=
| PdfError (msg : string)
| OtherError (msg : string).

(** What [open_pdf] raises; [msg] is the text [str(e)] of the exception
    caught. The handler of line 63 also catches the [InvalidPDFError] of
    line 57, whose text is "File is not a valid PDF". *)
Inductive InvalidPDFError : Type :=
| CannotOpenPDF (msg : string)          (* "Cannot open PDF: {str(e)}" *)
| ErrorOpeningPDF (msg : string).       (* "Error opening PDF: {str(e)}" *)

(** What the last handler of [delete_pages] and [extract_pages] catches. *)
Inductive page_failure : Type :=
| InvalidMode (mode : string)   (* ValueError of pages_to_keep *)
| IndexError                    (* source_pdf.pages[page_num - 1] *)
| SaveFailed (msg : string).

Inductive PDFError : Type :=
| NoFilesProvided                              (* "No files provided for merging" *)
| FileInvalid (n : Z) (e : InvalidPDFError)    (* "File {i + 1}: {str(e)}" *)
| ErrorSavingMerged (msg : string)             (* "Error saving merged PDF: {str(e)}" *)
| OfInvalidPDF (e : InvalidPDFError)           (* PDFError(str(e)) *)
| ErrorDeletingPages (e : page_failure)        (* "Error deleting pages: {str(e)}" *)
| ErrorExtractingPages (e : page_failure).     (* "Error extracting pages: {str(e)}" *)

(** What [delete_pages] and [extract_pages] raise. *)
Inductive pdf_exn : Type :=
| RaisedPDFError (e : PDFError)
| RaisedSpecError (e : PageSpecError).

Section Pikepdf.
Context {page : Type}.
Context (pikepdf_open : bytes -> result pikepdf_failure (list page)).
Context (pikepdf_save : list page -> result string bytes).

Definition open_pdf (source : bytes) : result InvalidPDFError (list page) :=
  let data := take 1024 source in
  if negb (is_valid_pdf data) then Raise (ErrorOpeningPDF "File is not a valid PDF")
  else
    match pikepdf_open source with
    | Ok pdf => Ok pdf
    | Raise (PdfError msg) => Raise (CannotOpenPDF msg)
    | Raise (OtherError msg) => Raise (ErrorOpeningPDF msg)
    end.

(** [pages[i]] with the indexing of a Python sequence. *)
Definition page_at (pages : list page) (i : Z) : option page :=
  let n := Z.of_nat (length pages) in
  if i <? 0 then (if 0 <=? n + i then pages !! Z.to_nat (n + i) else None)
  else pages !! Z.to_nat i.

(** Body of [for page_num in keep_pages] (lines 147-149 and 197-199). *)
Definition copy_page (source_pdf : list page) (output_pdf : list page) (page_num : Z)
  : result page_failure (list page) :=
  match page_at source_pdf (page_num - 1) with
  | Some p => Ok (output_pdf ++ [p])%list
  | None => Raise IndexError
  end.

(** Body of [for i, file_obj in enumerate(files)] (lines 87-103). *)
Definition merge_file (merged_pdf : list page) (item : nat * bytes)
  : result PDFError (list page) :=
  let '(i, file_obj) := item in
  match open_pdf file_obj with
  | Ok source_pdf => Ok (merged_pdf ++ source_pdf)%list
  | Raise e => Raise (FileInvalid (Z.of_nat i + 1) e)
  end.

(** [enumerate(files)] *)
Definition enumerate {A : Type} (l : list A) : list (nat * A) :=
  imap (fun i x => (i, x)) l.

Definition merge_pdfs (files : list bytes) : result PDFError bytes :=
  match files with
  | [] => Raise NoFilesProvided
  | _ =>
      match for_each merge_file [] (enumerate files) with
      | Raise e => Raise e
      | Ok merged_pdf =>
          match pikepdf_save merged_pdf with
          | Ok output => Ok output
          | Raise msg => Raise (ErrorSavingMerged msg)
          end
      end
  end.

Definition delete_pages (file : bytes) (pages_spec : string) : result pdf_exn bytes :=
  match open_pdf file with
  | Raise e => Raise (RaisedPDFError (OfInvalidPDF e))
  | Ok source_pdf =>
      let total_pages := Z.of_nat (length source_pdf) in
      match pages_to_keep pages_spec total_pages "delete" with
      | Raise (RaisedPageSpecError e) => Raise (RaisedSpecError e)
      | Raise (RaisedValueError m) =>
          Raise (RaisedPDFError (ErrorDeletingPages (InvalidMode m)))
      | Ok keep_pages =>
          match for_each (copy_page source_pdf) [] keep_pages with
          | Raise e => Raise (RaisedPDFError (ErrorDeletingPages e))
          | Ok output_pdf =>
              match pikepdf_save output_pdf with
              | Ok output => Ok output
              | Raise msg => Raise (RaisedPDFError (ErrorDeletingPages (SaveFailed msg)))
              end
          end
      end
  end.

Definition extract_pages (file : bytes) (pages_spec : string) : result pdf_exn bytes :=
  match open_pdf file with
  | Raise e => Raise (RaisedPDFError (OfInvalidPDF e))
  | Ok source_pdf =>
      let total_pages := Z.of_nat (length source_pdf) in
      match pages_to_keep pages_spec total_pages "extract" with
      | Raise (RaisedPageSpecError e) => Raise (RaisedSpecError e)
      | Raise (RaisedValueError m) =>
          Raise (RaisedPDFError (ErrorExtractingPages (InvalidMode m)))
      | Ok extract_pages_list =>
          match for_each (copy_page source_pdf) [] extract_pages_list with
          | Raise e => Raise (RaisedPDFError (ErrorExtractingPages e))
          | Ok output_pdf =>
              match pikepdf_save output_pdf with
              | Ok output => Ok output
              | Raise msg => Raise (RaisedPDFError (ErrorExtractingPages (SaveFailed msg)))
              end
          end
      end
  end.

End Pikepdf.

(** The pages of [source] whose 1-based position, counted from [first],
    satisfies [P], in document order. *)
Fixpoint pages_where {page : Type} (P : Z -> Prop) `{!forall p, Decision (P p)}
         (first : Z) (source : list page) : list page :=
  match source with
  | [] => []
  | x :: rest =>
      if decide (P first) then x :: pages_where P (first + 1) rest
      else pages_where P (first + 1) rest
  end.

(** A sequence of calls of [check_rate_limit], one per request (time of
    the call, client): the answers, in order, and the tracker left. *)
Fixpoint serve_all {time : Type} (within_window : time -> time -> bool)
         (rate_tracker : gmap string (list time)) (requests : list (time * string))
  : list bool * gmap string (list time) :=
  match requests with
  | [] => ([], rate_tracker)
  | (now, client_ip) :: rest =>
      let '(allowed, rate_tracker) :=
        check_rate_limit within_window rate_tracker now client_ip in
      let '(answers, rate_tracker) := serve_all within_window rate_tracker rest in
      (allowed :: answers, rate_tracker)
  end.

(** Time stamps in whole seconds, for the examples. *)
Definition within_hour (now t : Z) : bool := now - t <? 3600.

(** The outcome of a call that ends with the save of line 152 or 202:
    the bytes written, or the [PDFError] the last handler makes of the
    failure. *)
Definition saved (wrap : page_failure -> PDFError) (r : result string bytes)
  : result pdf_exn bytes :=
  match r with
  | Ok output => Ok output
  | Raise msg => Raise (RaisedPDFError (wrap (SaveFailed msg)))
  end.

(** A stand-in for the library, for the examples: every byte after the
    header is one page, and a document without pages cannot be read. *)
Definition toy_open (data : bytes) : result pikepdf_failure (list byte) :=
  match drop 5 data with
  | [] => Raise (PdfError "no pages")
  | pages => Ok pages
  end.

Definition toy_save (pages : list byte) : result string bytes :=
  Ok (PDF_MAGIC ++ pages)%list.

(** ** Notions used to state the properties of the rest of the application *)

(** The first, respectively last, character of [s] is one of [chars]. *)
Definition first_char_in (chars s : string) : bool :=
  match s with
  | EmptyString => false
  | String c _ => Py.contains c chars
  end.

Fixpoint last_char_in (chars s : string) : bool :=
  match s with
  | EmptyString => false
  | String c EmptyString => Py.contains c chars
  | String _ s' => last_char_in chars s'
  end.

(** What [sanitize_filename] does to the last path component (lines
    233-246). *)
Definition sanitize_component (filename : string) : string :=
  let filename := Py.re_sub_char (fun c => negb (filename_safe c)) "_" filename in
  let filename := Py.strip_chars ". " filename in
  let filename := if Py.is_empty filename then "document.pdf" else filename in
  if negb (Py.endswith (Py.lower filename) ".pdf") then filename ++ ".pdf"
  else filename.

(** A name that [sanitize_filename] has nothing to do to: safe characters
    only, no dot or blank in front, [.pdf] at the end in any case. *)
Definition clean_filename (s : string) : bool :=
  all_chars filename_safe s && negb (first_char_in ". " s)
  && Py.endswith (Py.lower s) ".pdf".

(** Two requests, for the examples. *)
Definition proxied_request : Request :=
  {| headers := <["X-Forwarded-For" := " 203.0.113.7 , 10.0.0.1"]>
                  (<["X-Real-IP" := "10.0.0.2"]> ∅);
     client_host := Some "127.0.0.1" |}.

Definition blank_hop_request : Request :=
  {| headers := <["X-Forwarded-For" := " ,10.0.0.1"]> ∅; client_host := None |}.

(** The tokens that are not blank, trimmed. *)
Definition named_tokens (spec : string) : list string :=
  filter (fun t => t <> "") (Py.strip <$> tokens spec).

(** The error is "Page ... exceeds total pages". *)
Definition exceeds_total (e : PageSpecError) : Prop :=
  match e with
  | PageExceedsTotal _ _ => True
  | _ => False
  end.

(** Every client has at most [RATE_LIMIT] recorded requests. *)
Definition bounded {time : Type} (rate_tracker : gmap string (list time)) : Prop :=
  forall ip l, rate_tracker !! ip = Some l -> (length l <= RATE_LIMIT)%nat.

(** * Properties *)

(** ** The examples of the module's docstring and of the specification *)

Example parse_individual_pages : parse_pagespec "1,3,5" 10 = Ok [1; 3; 5].
Proof. vm_compute. reflexivity. Qed.

Example parse_range : parse_pagespec "1-5" 10 = Ok [1; 2; 3; 4; 5].
Proof. vm_compute. reflexivity. Qed.

Example parse_mixed : parse_pagespec "1,3-5,7" 10 = Ok [1; 3; 4; 5; 7].
Proof. vm_compute. reflexivity. Qed.

Example parse_with_spaces : parse_pagespec " 1 , 3 - 5 " 10 = Ok [1; 3; 4; 5].
Proof. vm_compute. reflexivity. Qed.

Example parse_overlap : parse_pagespec "4,2-5,3" 10 = Ok [2; 3; 4; 5].
Proof. vm_compute. reflexivity. Qed.

Example parse_zero_bound : parse_pagespec "0-3" 10 = Raise (RangeNotPositive "0-3").
Proof. vm_compute. reflexivity. Qed.

Example parse_reversed_range :
  parse_pagespec "5-3" 10 = Raise (RangeStartGreaterThanEnd 5 3).
Proof. vm_compute. reflexivity. Qed.

Example parse_three_sides : parse_pagespec "1-2-3" 10 = Raise (InvalidRangeFormat "1-2-3").
Proof. vm_compute. reflexivity. Qed.

Example parse_not_a_number : parse_pagespec "1,x" 10 = Raise (InvalidPageNumber "x").
Proof. vm_compute. reflexivity. Qed.

Example keep_delete_all :
  pages_to_keep "1-10" 10 "delete" = Raise (RaisedPageSpecError CannotDeleteAllPages).
Proof. vm_compute. reflexivity. Qed.

Example keep_extract_one : pages_to_keep "2" 3 "extract" = Ok [2].
Proof. vm_compute. reflexivity. Qed.

Example int_literals :
  (Py.int "1_000", Py.int "+7", Py.int "1__0", Py.int "_1", Py.int "1_",
   Py.int "", Py.int "12a", Py.int " 12 ", Py.int "-3", Py.int "1 2", Py.int "+")
  = (Some 1000, Some 7, None, None, None,
     None, None, Some 12, Some (-3), None, None).
Proof. vm_compute. reflexivity. Qed.

(** *** The cap on the digits of a literal *)

Lemma int_isspace_not_digit (c : ascii) :
  Py.int_isspace c = true -> Py.digit_value c = None.
Proof. destruct c as [[] [] [] [] [] [] [] []]; (discriminate || reflexivity). Qed.

Lemma skip_space_count (s : string) : count_digits (Py.skip_space s) = count_digits s.
Proof.
  induction s as [|c s IH]; [done|]. cbn [Py.skip_space].
  destruct (Py.int_isspace c) eqn:E; [|done].
  cbn [count_digits]. by rewrite (int_isspace_not_digit c E).
Qed.

Lemma scan_digits_cap (s : string) (prev : Py.scanned) (acc digits v : Z) :
  Py.scan_digits prev acc digits s = Some v ->
  digits + count_digits s <= Py.int_max_str_digits.
Proof.
  assert (forall d a, Py.within_digit_cap d a = Some v -> d <= Py.int_max_str_digits)
    as Hcap.
  { intros d a. unfold Py.within_digit_cap.
    destruct (Z.ltb_spec Py.int_max_str_digits d); [discriminate | done]. }
  revert prev acc digits. induction s as [|c s IH]; intros prev acc digits.
  - cbn [Py.scan_digits count_digits]. destruct prev; try discriminate.
    intros H%Hcap. lia.
  - cbn [Py.scan_digits count_digits].
    destruct (Py.digit_value c) as [d|] eqn:Hd.
    + intros H%IH. lia.
    + destruct prev; try discriminate.
      destruct (Ascii.eqb c "_"); [apply IH|].
      pose proof (skip_space_count (String c s)) as Hc.
      destruct (Py.skip_space (String c s)) as [|c' r']; [|discriminate].
      cbn [Py.is_empty]. intros H%Hcap.
      cbn [count_digits] in Hc. rewrite Hd in Hc. lia.
Qed.

Lemma int_scan (s : string) :
  exists r, count_digits r = count_digits s /\
            (Py.int s = Py.scan_digits Py.Nothing 0 0 r \/
             Py.int s = Z.opp <$> Py.scan_digits Py.Nothing 0 0 r).
Proof.
  unfold Py.int. rewrite <- (skip_space_count s).
  destruct (Py.skip_space s) as [|c r]; [exists ""; by split; [|left]|].
  destruct c as [[] [] [] [] [] [] [] []];
    first [ exists r; split; [reflexivity | right; reflexivity]
          | exists r; split; [reflexivity | left; reflexivity]
          | eexists; split; [reflexivity | left; reflexivity] ].
Qed.

(** [int] accepts no literal of more than 4300 digits. *)
Lemma int_digit_cap (s : string) (v : Z) :
  Py.int s = Some v -> count_digits s <= Py.int_max_str_digits.
Proof.
  destruct (int_scan s) as (r & <- & [-> | ->]).
  - intros H%scan_digits_cap. lia.
  - destruct (Py.scan_digits Py.Nothing 0 0 r) as [w|] eqn:E; [|discriminate].
    intros _. apply scan_digits_cap in E. lia.
Qed.

Example int_at_the_cap :
  Py.int (zeros_then 4299 "7") = Some 7 /\ Py.int (zeros_then 4300 "7") = None.
Proof. split; vm_compute; reflexivity. Qed.

(** A range bound or a page number of more than 4300 digits is not a
    number for [int]: the token is reported as such, whatever
    [total_pages] is. *)
Example parse_long_literal_in_range :
  parse_pagespec ("1-" ++ zeros_then 4300 "9") 5
  = Raise (InvalidNumbersInRange ("1-" ++ zeros_then 4300 "9")).
Proof. vm_compute. reflexivity. Qed.

Example parse_long_literal_page :
  parse_part 0 ∅ (zeros_then 4300 "1") = Raise (InvalidPageNumber (zeros_then 4300 "1")).
Proof. vm_compute. reflexivity. Qed.

(** ** Loops that may raise *)

Section ForEach.
Context {S X E : Type} (body : S -> X -> result E S).

Lemma for_each_app (st : S) (xs ys : list X) :
  for_each body st (xs ++ ys) =
  match for_each body st xs with
  | Ok st' => for_each body st' ys
  | Raise e => Raise e
  end.
Proof.
  revert st. induction xs as [|x xs IH]; intros st; simpl; [reflexivity|].
  destruct (body st x); [apply IH | reflexivity].
Qed.

Lemma for_each_ok_inv (P : S -> Prop) (xs : list X) :
  (forall st x st', x ∈ xs -> P st -> body st x = Ok st' -> P st') ->
  forall st st', P st -> for_each body st xs = Ok st' -> P st'.
Proof.
  induction xs as [|x xs IH]; intros Hstep st st' HP; simpl.
  - intros [= <-]. exact HP.
  - destruct (body st x) as [st1|e] eqn:Hb; [|discriminate].
    apply IH.
    + intros st0 y st0' Hy. apply Hstep. by right.
    + eapply Hstep; [left | exact HP | exact Hb].
Qed.

Lemma for_each_raise_inv (xs : list X) (st : S) (e : E) :
  for_each body st xs = Raise e ->
  exists st' x, x ∈ xs /\ body st' x = Raise e.
Proof.
  revert st. induction xs as [|x xs IH]; intros st; simpl; [discriminate|].
  destruct (body st x) as [st1|e1] eqn:Hb.
  - intros H. destruct (IH _ H) as (st' & y & Hy & Hr).
    exists st', y. split; [by right | exact Hr].
  - intros [= <-]. exists st, x. split; [left | exact Hb].
Qed.

End ForEach.

(** ** The string builtins *)

Lemma is_empty_true (s : string) : Py.is_empty s = true <-> s = "".
Proof. destruct s; simpl; split; congruence. Qed.

Lemma is_empty_false (s : string) : Py.is_empty s = false <-> s <> "".
Proof. destruct s; simpl; split; congruence. Qed.

Lemma lstrip_empty (s : string) : Py.lstrip s = "" <-> whitespace_only s.
Proof.
  unfold whitespace_only. induction s as [|c s IH]; simpl; [tauto|].
  destruct (Py.isspace c); simpl; [exact IH|]. split; discriminate.
Qed.

Lemma rstrip_empty (s : string) : Py.rstrip s = "" <-> whitespace_only s.
Proof.
  unfold whitespace_only. induction s as [|c s IH]; simpl; [tauto|].
  destruct (Py.rstrip s) as [|d r].
  - destruct (Py.isspace c); simpl; [tauto|]. split; discriminate.
  - split; [discriminate|]. intros H. apply andb_true_iff in H as [_ H].
    apply IH in H. discriminate.
Qed.

Section StripKeeps.
Context (p : ascii -> bool) (Hp : forall c, Py.isspace c = true -> p c = true).

Lemma all_chars_lstrip (s : string) :
  all_chars p (Py.lstrip s) = all_chars p s.
Proof.
  induction s as [|c s IH]; simpl; [done|].
  destruct (Py.isspace c) eqn:Hc; [|done].
  by rewrite IH, (Hp c Hc).
Qed.

Lemma all_chars_rstrip (s : string) :
  all_chars p (Py.rstrip s) = all_chars p s.
Proof.
  induction s as [|c s IH]; simpl; [done|].
  destruct (Py.rstrip s) as [|d r].
  - rewrite <- IH. destruct (Py.isspace c) eqn:Hc; simpl; [|done].
    by rewrite (Hp c Hc).
  - by rewrite <- IH.
Qed.

Lemma all_chars_strip (s : string) :
  all_chars p (Py.strip s) = all_chars p s.
Proof. unfold Py.strip. by rewrite all_chars_rstrip, all_chars_lstrip. Qed.

End StripKeeps.

Lemma strip_empty (s : string) : Py.strip s = "" <-> whitespace_only s.
Proof.
  unfold Py.strip. rewrite rstrip_empty. unfold whitespace_only.
  by rewrite all_chars_lstrip.
Qed.

Lemma strip_nonempty (s : string) :
  Py.is_empty s || Py.is_empty (Py.strip s) = false <-> ~ whitespace_only s.
Proof.
  rewrite <- strip_empty, orb_false_iff, !is_empty_false.
  split; [tauto|]. intros H. split; [|exact H]. intros ->. by apply H.
Qed.

Lemma split_not_nil (sep : ascii) (s : string) : Py.split sep s <> [].
Proof.
  destruct s as [|c s]; simpl; [done|].
  destruct (Ascii.eqb c sep); [done|]. by destruct (Py.split sep s).
Qed.

(** All tokens are blank exactly when the text is commas and white space. *)
Lemma split_all_blank (s : string) :
  Forall (fun t => Py.strip t = "") (Py.split "," s) <-> commas_and_whitespace s.
Proof.
  unfold commas_and_whitespace. induction s as [|c s IH]; simpl.
  - split; [done|]. intros _. by constructor.
  - destruct (Ascii.eqb c ",") eqn:Hc; simpl.
    + rewrite Forall_cons. rewrite IH. split; [tauto|]. by split.
    + pose proof (split_not_nil "," s) as Hne.
      destruct (Py.split "," s) as [|h t]; [done|].
      rewrite Forall_cons, andb_true_iff, <- IH, Forall_cons.
      rewrite !strip_empty. unfold whitespace_only. simpl.
      rewrite andb_true_iff. tauto.
Qed.

Lemma tokens_all_blank (spec : string) :
  Forall (fun t => Py.strip t = "") (tokens spec) <-> commas_and_whitespace spec.
Proof.
  unfold tokens. rewrite split_all_blank. unfold commas_and_whitespace.
  rewrite all_chars_strip; [done|]. intros c ->. apply orb_true_r.
Qed.

Lemma split_without_sep (sep : ascii) (s : string) :
  Py.contains sep s = false -> Py.split sep s = [s].
Proof.
  induction s as [|c s IH]; simpl; [done|].
  destruct (Ascii.eqb c sep); simpl; [done|].
  intros H. by rewrite (IH H).
Qed.

Lemma int_empty : Py.int "" = None.
Proof. reflexivity. Qed.

(** ** Sorting a set *)

Lemma sorted_elem_of (s : gset Z) (p : Z) : p ∈ Py.sorted s <-> p ∈ s.
Proof. unfold Py.sorted. by rewrite merge_sort_Permutation, elem_of_elements. Qed.

Lemma sorted_NoDup (s : gset Z) : NoDup (Py.sorted s).
Proof. unfold Py.sorted. rewrite merge_sort_Permutation. apply NoDup_elements. Qed.

Lemma StronglySorted_le_lt (l : list Z) :
  StronglySorted Z.le l -> NoDup l -> StronglySorted Z.lt l.
Proof.
  induction 1 as [|x l Hs IH Hx]; intros Hnd; constructor.
  - apply IH. by apply NoDup_cons in Hnd as [_ ?].
  - apply NoDup_cons in Hnd as [Hnotin _].
    apply Forall_forall. intros y Hy.
    assert (x <= y) by (eapply Forall_forall in Hx; eauto).
    assert (x <> y) by (intros ->; by apply Hnotin).
    lia.
Qed.

Lemma sorted_increasing (s : gset Z) : StronglySorted Z.lt (Py.sorted s).
Proof.
  apply StronglySorted_le_lt; [|apply sorted_NoDup].
  unfold Py.sorted. apply StronglySorted_merge_sort; apply _.
Qed.

Lemma StronglySorted_lt_NoDup (l : list Z) : StronglySorted Z.lt l -> NoDup l.
Proof.
  induction 1 as [|x l Hs IH Hx]; constructor; [|exact IH].
  intros Hin. eapply Forall_forall in Hx; [|exact Hin]. lia.
Qed.

Lemma StronglySorted_lt_le (l : list Z) :
  StronglySorted Z.lt l -> StronglySorted Z.le l.
Proof.
  induction 1 as [|x l Hs IH Hx]; constructor; [exact IH|].
  eapply Forall_impl; [exact Hx|]. intros; simpl in *; lia.
Qed.

(** Two increasing lists with the same members are the same list. *)
Lemma increasing_unique (l1 l2 : list Z) :
  StronglySorted Z.lt l1 -> StronglySorted Z.lt l2 ->
  (forall x, x ∈ l1 <-> x ∈ l2) -> l1 = l2.
Proof.
  intros H1 H2 Hmem.
  apply (StronglySorted_unique Z.le); auto using StronglySorted_lt_le.
  apply NoDup_Permutation; auto using StronglySorted_lt_NoDup.
Qed.

Lemma range_increasing (start stop : Z) : StronglySorted Z.lt (Py.range start stop).
Proof.
  unfold Py.range. remember (Z.to_nat (stop - start)) as k eqn:Hk.
  revert start Hk. induction k as [|k IH]; intros start Hk.
  - rewrite seqZ_nil by lia. constructor.
  - rewrite seqZ_cons by lia. constructor.
    + replace (Z.pred (stop - start)) with (stop - Z.succ start) by lia.
      apply IH. lia.
    + apply Forall_seqZ. intros; lia.
Qed.

Lemma elem_of_range (start stop p : Z) :
  p ∈ Py.range start stop <-> start <= p < stop.
Proof. unfold Py.range. rewrite elem_of_seqZ. lia. Qed.

Lemma StronglySorted_filter (P : Z -> Prop) `{!forall x, Decision (P x)} (l : list Z) :
  StronglySorted Z.lt l -> StronglySorted Z.lt (filter P l).
Proof.
  induction 1 as [|x l Hs IH Hx]; [constructor|].
  rewrite filter_cons. destruct (decide (P x)); [|exact IH].
  constructor; [exact IH|]. apply Forall_forall. intros y Hy.
  apply list_elem_of_filter in Hy as [_ Hy].
  eapply Forall_forall in Hx; eauto.
Qed.

(** ** The loop over a range (lines 74-79) *)

Lemma add_range_fits (total_pages : Z) (pages : gset Z) (start len : Z) :
  start + len - 1 <= total_pages ->
  for_each (add_range_page total_pages) pages (seqZ start len)
  = Ok (list_to_set (seqZ start len) ∪ pages).
Proof.
  remember (Z.to_nat len) as k eqn:Hk.
  revert pages start len Hk. induction k as [|k IH]; intros pages start len Hk Hfit.
  - rewrite seqZ_nil by lia. simpl. f_equal. set_solver.
  - rewrite seqZ_cons by lia. simpl. unfold add_range_page at 1.
    destruct (total_pages <? start) eqn:Hlt; [lia|].
    rewrite IH by lia. f_equal. set_solver.
Qed.

Lemma add_range_exceeds (total_pages : Z) (pages : gset Z) (start len : Z) :
  0 < len -> total_pages < start + len - 1 ->
  for_each (add_range_page total_pages) pages (seqZ start len)
  = Raise (PageExceedsTotal (Z.max start (total_pages + 1)) total_pages).
Proof.
  remember (Z.to_nat len) as k eqn:Hk.
  revert pages start len Hk. induction k as [|k IH]; intros pages start len Hk Hpos Hex.
  - lia.
  - rewrite seqZ_cons by lia. simpl. unfold add_range_page at 1.
    destruct (total_pages <? start) eqn:Hlt.
    + do 2 f_equal. lia.
    + rewrite IH by lia. do 2 f_equal. lia.
Qed.

(** ** One token (lines 43-95) *)

Lemma parse_part_blank (total_pages : Z) (pages : gset Z) (part : string) :
  Py.strip part = "" -> parse_part total_pages pages part = Ok pages.
Proof. intros H. unfold parse_part. by rewrite H. Qed.

Lemma names_page_nonempty (part : string) (page : Z) :
  names_page part page -> Py.strip part <> "".
Proof. intros (_ & Hint & _) H. rewrite H in Hint. discriminate. Qed.

Lemma names_range_contains (part : string) (start stop : Z) :
  names_range part start stop -> Py.contains "-" (Py.strip part) = true.
Proof.
  intros (a & b & Hsplit & _).
  destruct (Py.contains "-" (Py.strip part)) eqn:Hc; [done|].
  apply split_without_sep in Hc. congruence.
Qed.

Lemma names_range_nonempty (part : string) (start stop : Z) :
  names_range part start stop -> Py.strip part <> "".
Proof. intros H%names_range_contains Hs. rewrite Hs in H. discriminate. Qed.

Lemma parse_part_page (total_pages : Z) (pages : gset Z) (part : string) (page : Z) :
  names_page part page ->
  parse_part total_pages pages part =
  if total_pages <? page then Raise (PageExceedsTotal page total_pages)
  else Ok ({[page]} ∪ pages).
Proof.
  intros Hn. pose proof (names_page_nonempty _ _ Hn) as Hne.
  destruct Hn as (Hc & Hint & Hpos).
  unfold parse_part. apply is_empty_false in Hne. rewrite Hne, Hc, Hint.
  destruct (page <=? 0) eqn:Hle; [lia|]. reflexivity.
Qed.

Lemma parse_part_range (total_pages : Z) (pages : gset Z) (part : string)
      (start stop : Z) :
  names_range part start stop ->
  parse_part total_pages pages part =
  if total_pages <? stop
  then Raise (PageExceedsTotal (Z.max start (total_pages + 1)) total_pages)
  else Ok (list_to_set (Py.range start (stop + 1)) ∪ pages).
Proof.
  intros Hn. pose proof (names_range_nonempty _ _ _ Hn) as Hne.
  pose proof (names_range_contains _ _ _ Hn) as Hc.
  destruct Hn as (a & b & Hsplit & Ha & Hb & Hpos & Hle).
  unfold parse_part. apply is_empty_false in Hne. rewrite Hne, Hc, Hsplit.
  assert (Py.is_empty (Py.strip a) = false) as ->.
  { apply is_empty_false. intros E. rewrite E in Ha. discriminate. }
  assert (Py.is_empty (Py.strip b) = false) as ->.
  { apply is_empty_false. intros E. rewrite E in Hb. discriminate. }
  simpl. rewrite Ha, Hb.
  destruct (start <=? 0) eqn:H1; [lia|].
  destruct (stop <=? 0) eqn:H2; [lia|]. simpl.
  destruct (stop <? start) eqn:H3; [lia|].
  unfold Py.range. destruct (total_pages <? stop) eqn:H4.
  - apply add_range_exceeds; lia.
  - apply add_range_fits; lia.
Qed.

(** What an accepted token is, and what it adds to the set. *)
Lemma parse_part_ok_inv (total_pages : Z) (pages pages' : gset Z) (part : string) :
  parse_part total_pages pages part = Ok pages' ->
  (Py.strip part = "" /\ pages' = pages) \/
  (exists page, names_page part page /\ page <= total_pages /\
                pages' = {[page]} ∪ pages) \/
  (exists start stop, names_range part start stop /\ stop <= total_pages /\
                      pages' = list_to_set (Py.range start (stop + 1)) ∪ pages).
Proof.
  intros H.
  destruct (Py.is_empty (Py.strip part)) eqn:He.
  { left. apply is_empty_true in He. rewrite parse_part_blank in H by done.
    split; congruence. }
  right. unfold parse_part in H. rewrite He in H.
  destruct (Py.contains "-" (Py.strip part)) eqn:Hc.
  - right.
    destruct (Py.split "-" (Py.strip part)) as [|a [|b [|? ?]]] eqn:Hs;
      try discriminate.
    destruct (Py.is_empty (Py.strip a) || Py.is_empty (Py.strip b)); [discriminate|].
    destruct (Py.int (Py.strip a)) as [start|] eqn:Ha; [|discriminate].
    destruct (Py.int (Py.strip b)) as [stop|] eqn:Hb; [|discriminate].
    destruct ((start <=? 0) || (stop <=? 0)) eqn:Hpos; [discriminate|].
    destruct (stop <? start) eqn:Hlt; [discriminate|].
    apply orb_false_iff in Hpos as [H1 H2].
    assert (names_range part start stop) as Hn.
    { exists a, b. repeat split; auto; lia. }
    exists start, stop. split; [exact Hn|].
    pose proof (parse_part_range total_pages pages part _ _ Hn) as Hr.
    unfold parse_part in Hr. rewrite He, Hc, Hs in Hr.
    assert (Py.is_empty (Py.strip a) || Py.is_empty (Py.strip b) = false) as Hee.
    { destruct Hn as (a' & b' & Hs' & Ha' & Hb' & _).
      apply orb_false_iff. split; apply is_empty_false; intros E.
      - rewrite E in Ha. discriminate.
      - rewrite E in Hb. discriminate. }
    rewrite Hee, Ha, Hb, H1, H2 in Hr. simpl in Hr. rewrite Hlt in Hr.
    rewrite Hr in H. destruct (total_pages <? stop) eqn:H4; [discriminate|].
    split; [lia|]. congruence.
  - left.
    destruct (Py.int (Py.strip part)) as [page|] eqn:Hi; [|discriminate].
    destruct (page <=? 0) eqn:H1; [discriminate|].
    destruct (total_pages <? page) eqn:H2; [discriminate|].
    exists page. split; [|split; [lia | congruence]].
    repeat split; auto; lia.
Qed.

(** What the text of a token names, for the three kinds of accepted token. *)
Lemma pages_named_by_blank (part : string) :
  Py.strip part = "" -> pages_named_by part = [].
Proof. intros H. unfold pages_named_by. by rewrite H. Qed.

Lemma pages_named_by_page (part : string) (page : Z) :
  names_page part page -> pages_named_by part = [page].
Proof. intros (Hc & Hi & _). unfold pages_named_by. by rewrite Hc, Hi. Qed.

Lemma pages_named_by_range (part : string) (start stop : Z) :
  names_range part start stop -> pages_named_by part = Py.range start (stop + 1).
Proof.
  intros Hn. pose proof (names_range_contains _ _ _ Hn) as Hc.
  destruct Hn as (a & b & Hs & Ha & Hb & _).
  unfold pages_named_by. by rewrite Hc, Hs, Ha, Hb.
Qed.

(** An accepted token adds exactly the pages its text names; they lie in
    the document, and a token that is not blank names at least one. *)
Lemma parse_part_ok (total_pages : Z) (pages pages' : gset Z) (part : string) :
  parse_part total_pages pages part = Ok pages' ->
  pages' = list_to_set (pages_named_by part) ∪ pages /\
  Forall (fun p => 1 <= p <= total_pages) (pages_named_by part) /\
  (Py.strip part <> "" -> pages_named_by part <> []).
Proof.
  intros H. apply parse_part_ok_inv in H
    as [[Hb ->] | [(page & Hn & Hle & ->) | (start & stop & Hn & Hle & ->)]].
  - rewrite pages_named_by_blank by done. split; [set_solver|]. by split.
  - rewrite (pages_named_by_page _ _ Hn). destruct Hn as (_ & _ & Hpos).
    split; [set_solver|]. split; [|done].
    constructor; [lia | constructor].
  - rewrite (pages_named_by_range _ _ _ Hn). destruct Hn as (_ & _ & _ & _ & _ & Hpos & Hss).
    split; [done|]. split.
    + apply Forall_forall. intros p Hp%elem_of_range. lia.
    + intros _ E. assert (start ∈ Py.range start (stop + 1)) as Hin
        by (apply elem_of_range; lia).
      rewrite E in Hin. by apply not_elem_of_nil in Hin.
Qed.

Lemma parse_part_raise (total_pages : Z) (pages : gset Z) (part : string)
      (e : PageSpecError) :
  parse_part total_pages pages part = Raise e -> raised_by_token e.
Proof.
  unfold parse_part.
  destruct (Py.is_empty (Py.strip part)); [discriminate|].
  destruct (Py.contains "-" (Py.strip part)).
  - destruct (Py.split "-" (Py.strip part)) as [|a [|b [|? ?]]];
      try (intros [= <-]; exact I).
    destruct (Py.is_empty (Py.strip a) || Py.is_empty (Py.strip b));
      [intros [= <-]; exact I|].
    destruct (Py.int (Py.strip a)) as [start|]; [|intros [= <-]; exact I].
    destruct (Py.int (Py.strip b)) as [stop|]; [|intros [= <-]; exact I].
    destruct ((start <=? 0) || (stop <=? 0)); [intros [= <-]; exact I|].
    destruct (stop <? start); [intros [= <-]; exact I|].
    intros (st & p & _ & Hr)%for_each_raise_inv.
    unfold add_range_page in Hr.
    destruct (total_pages <? p); [|discriminate].
    injection Hr as <-. exact I.
  - destruct (Py.int (Py.strip part)) as [page|]; [|intros [= <-]; exact I].
    destruct (page <=? 0); [intros [= <-]; exact I|].
    destruct (total_pages <? page); [intros [= <-]; exact I | discriminate].
Qed.

(** ** The loop over the tokens (lines 42-95) *)

Lemma parse_parts_ok (total_pages : Z) (parts : list string) (pages pages' : gset Z) :
  for_each (parse_part total_pages) pages parts = Ok pages' ->
  pages' = list_to_set (concat (map pages_named_by parts)) ∪ pages /\
  Forall (fun p => 1 <= p <= total_pages) (concat (map pages_named_by parts)) /\
  (Exists (fun t => Py.strip t <> "") parts -> concat (map pages_named_by parts) <> []).
Proof.
  revert pages. induction parts as [|part parts IH]; intros pages; simpl.
  - intros [= <-]. split; [set_solver|]. split; [constructor|].
    intros H. by apply Exists_nil in H.
  - destruct (parse_part total_pages pages part) as [pages1|e] eqn:Hp; [|discriminate].
    intros H. apply IH in H as (-> & Hall & Hne).
    apply parse_part_ok in Hp as (-> & Hall1 & Hne1).
    split; [rewrite list_to_set_app_L; set_solver|].
    split; [by apply Forall_app|].
    intros Hex. apply Exists_cons in Hex as [Hex|Hex].
    + intros E. apply app_eq_nil in E as [E _]. by apply Hne1.
    + intros E. apply app_eq_nil in E as [_ E]. by apply Hne.
Qed.

(** ** [parse_pagespec] as a whole *)

Lemma parse_pagespec_blank (spec : string) (total_pages : Z) :
  whitespace_only spec -> parse_pagespec spec total_pages = Raise EmptySpecification.
Proof.
  intros H. unfold parse_pagespec.
  destruct (Py.is_empty spec || Py.is_empty (Py.strip spec)) eqn:E; [done|].
  apply strip_nonempty in E. contradiction.
Qed.

Lemma parse_pagespec_not_blank (spec : string) (total_pages : Z) :
  ~ whitespace_only spec ->
  parse_pagespec spec total_pages =
  match for_each (parse_part total_pages) ∅ (tokens spec) with
  | Raise e => Raise e
  | Ok pages => if decide (pages = ∅) then Raise NoValidPages else Ok (Py.sorted pages)
  end.
Proof.
  intros H. apply strip_nonempty in H. unfold parse_pagespec. by rewrite H.
Qed.

Lemma whitespace_only_dec (spec : string) : {whitespace_only spec} + {~ whitespace_only spec}.
Proof. unfold whitespace_only. destruct (all_chars Py.isspace spec); [by left | by right]. Qed.

Lemma parse_pagespec_ok_inv (spec : string) (total_pages : Z) (l : list Z) :
  parse_pagespec spec total_pages = Ok l ->
  exists pages : gset Z,
    ~ whitespace_only spec /\
    for_each (parse_part total_pages) ∅ (tokens spec) = Ok pages /\
    pages <> ∅ /\ l = Py.sorted pages.
Proof.
  intros H. destruct (whitespace_only_dec spec) as [Hw|Hw].
  { rewrite parse_pagespec_blank in H by done. discriminate. }
  rewrite parse_pagespec_not_blank in H by done.
  destruct (for_each (parse_part total_pages) ∅ (tokens spec)) as [pages|e];
    [|discriminate].
  destruct (decide (pages = ∅)); [discriminate|].
  exists pages. repeat split; auto. congruence.
Qed.

(** The exception of the first token that raises is the exception of the
    call. *)
Lemma parse_pagespec_raises_at (spec : string) (total_pages : Z)
      (before after : list string) (part : string) (pages : gset Z)
      (e : PageSpecError) :
  ~ whitespace_only spec ->
  tokens spec = (before ++ part :: after)%list ->
  for_each (parse_part total_pages) ∅ before = Ok pages ->
  parse_part total_pages pages part = Raise e ->
  parse_pagespec spec total_pages = Raise e.
Proof.
  intros Hw Ht Hb Hp. rewrite parse_pagespec_not_blank by done.
  rewrite Ht, for_each_app, Hb. simpl. by rewrite Hp.
Qed.

(** The members of a successful result are the pages the text names. *)
Lemma parse_pagespec_members (spec : string) (total_pages : Z) (l : list Z) :
  parse_pagespec spec total_pages = Ok l ->
  (forall p, p ∈ l <-> p ∈ pages_named spec) /\
  Forall (fun p => 1 <= p <= total_pages) (pages_named spec).
Proof.
  intros (pages & _ & Hloop & _ & ->)%parse_pagespec_ok_inv.
  apply parse_parts_ok in Hloop as (-> & Hall & _).
  split; [|exact Hall].
  intros p. rewrite sorted_elem_of. unfold pages_named. set_solver.
Qed.

Lemma sorted_not_nil (s : gset Z) : s <> ∅ -> Py.sorted s <> [].
Proof.
  intros Hne E. destruct (set_choose_L s Hne) as [x Hx].
  apply sorted_elem_of in Hx. rewrite E in Hx. by apply not_elem_of_nil in Hx.
Qed.

Lemma parse_parts_all_blank (total_pages : Z) (parts : list string) (pages : gset Z) :
  Forall (fun t => Py.strip t = "") parts ->
  for_each (parse_part total_pages) pages parts = Ok pages.
Proof.
  induction 1 as [|part parts Hb _ IH]; simpl; [done|].
  by rewrite parse_part_blank.
Qed.

(** ** First occurrences *)

Lemma elem_of_first_occurrences (seen l : list Z) (x : Z) :
  x ∈ first_occurrences seen l <-> x ∈ l /\ x ∉ seen.
Proof.
  revert seen. induction l as [|y l IH]; intros seen; simpl.
  - split; [intros H | intros [H _]]; by apply not_elem_of_nil in H.
  - destruct (decide (y ∈ seen)) as [Hy|Hy].
    + rewrite IH, elem_of_cons. split; [tauto|].
      intros [[->|Hx] Hs]; [contradiction | tauto].
    + rewrite !elem_of_cons, IH, not_elem_of_cons.
      destruct (decide (x = y)) as [->|Hxy]; tauto.
Qed.

Lemma NoDup_first_occurrences (seen l : list Z) : NoDup (first_occurrences seen l).
Proof.
  revert seen. induction l as [|y l IH]; intros seen; simpl; [constructor|].
  destruct (decide (y ∈ seen)); [apply IH|].
  constructor; [|apply IH].
  rewrite elem_of_first_occurrences, not_elem_of_cons. tauto.
Qed.

Example first_occurrences_example :
  first_occurrences [] [5; 1; 5; 3; 1; 4] = [5; 1; 3; 4].
Proof. reflexivity. Qed.

(** ** The properties of the specification *)

(** C1. Whenever [parse_pagespec spec total_pages] succeeds, every value of
    the returned list lies in [1, total_pages] and no value is repeated. *)
Theorem parse_pagespec_in_bounds_no_duplicates
        (spec : string) (total_pages : Z) (l : list Z) :
  parse_pagespec spec total_pages = Ok l ->
  Forall (fun p => 1 <= p <= total_pages) l /\ NoDup l.
Proof.
  intros H. split.
  - apply parse_pagespec_members in H as [Hmem Hall].
    apply Forall_forall. intros p Hp%Hmem.
    eapply Forall_forall in Hall; eauto.
  - apply parse_pagespec_ok_inv in H as (pages & _ & _ & _ & ->).
    apply sorted_NoDup.
Qed.

Lemma parse_pagespec_in_bounds_no_duplicates_witness :
  Forall (fun p => 1 <= p <= 10) [1; 3; 4; 5; 7] /\ NoDup [1; 3; 4; 5; 7].
Proof.
  apply (parse_pagespec_in_bounds_no_duplicates "1,3-5, 7,4" 10).
  vm_compute. reflexivity.
Defined.

(** C2, as the specification states it, fails: for ["5,1,3"] on a five-page
    document the parse succeeds, the first-occurrence order is [5,1,3], and
    extract mode returns [1,3,5]. *)
Lemma extract_first_occurrence_order_counterexample :
  parse_pagespec "5,1,3" 5 = Ok [1; 3; 5] /\
  first_occurrence_order "5,1,3" = [5; 1; 3] /\
  pages_to_keep "5,1,3" 5 "extract" = Ok [1; 3; 5] /\
  pages_to_keep "5,1,3" 5 "extract" <> Ok (first_occurrence_order "5,1,3").
Proof.
  assert (pages_to_keep "5,1,3" 5 "extract" = Ok [1; 3; 5]) as Hk
    by (vm_compute; reflexivity).
  assert (first_occurrence_order "5,1,3" = [5; 1; 3]) as Hf
    by (vm_compute; reflexivity).
  split; [vm_compute; reflexivity|]. split; [exact Hf|]. split; [exact Hk|].
  rewrite Hk, Hf. discriminate.
Qed.

(** C2, amended. Whenever the specification parses, extract mode returns
    the distinct named pages (the same pages as the first-occurrence list,
    each once) in ascending numeric order, not in the order in which they
    are named. *)
Theorem extract_returns_named_pages_ascending
        (spec : string) (total_pages : Z) (l : list Z) :
  parse_pagespec spec total_pages = Ok l ->
  exists keep : list Z,
    pages_to_keep spec total_pages "extract" = Ok keep /\
    StronglySorted Z.lt keep /\
    keep ≡ₚ first_occurrence_order spec.
Proof.
  intros H. exists l. unfold pages_to_keep. rewrite H. simpl.
  split; [reflexivity|].
  pose proof (parse_pagespec_members _ _ _ H) as [Hmem _].
  apply parse_pagespec_ok_inv in H as (pages & _ & _ & _ & ->).
  split; [apply sorted_increasing|].
  apply NoDup_Permutation.
  - apply sorted_NoDup.
  - apply NoDup_first_occurrences.
  - intros p. rewrite Hmem. unfold first_occurrence_order.
    rewrite elem_of_first_occurrences. split; [|tauto].
    intros Hp. split; [exact Hp | apply not_elem_of_nil].
Qed.

Lemma extract_returns_named_pages_ascending_witness :
  exists keep : list Z,
    pages_to_keep "5,1,3" 5 "extract" = Ok keep /\
    StronglySorted Z.lt keep /\
    keep ≡ₚ first_occurrence_order "5,1,3".
Proof.
  apply (extract_returns_named_pages_ascending "5,1,3" 5 [1; 3; 5]).
  vm_compute. reflexivity.
Defined.

(** C3. Whenever the specification parses to the pages [S], delete mode
    raises "Cannot delete all pages" when no page of [1..total_pages] is
    outside [S], and otherwise returns the pages of [1..total_pages]
    outside [S] in ascending order; [pages_to_keep("2", 3, "delete")] is
    [1, 3]. *)
Theorem delete_returns_sorted_complement
        (spec : string) (total_pages : Z) (S : list Z) :
  parse_pagespec spec total_pages = Ok S ->
  let complement := filter (fun p => p ∉ S) (Py.range 1 (total_pages + 1)) in
  (forall p, p ∈ complement <-> 1 <= p <= total_pages /\ p ∉ S) /\
  StronglySorted Z.lt complement /\
  (complement = [] ->
   pages_to_keep spec total_pages "delete" = Raise (RaisedPageSpecError CannotDeleteAllPages)) /\
  (complement <> [] ->
   pages_to_keep spec total_pages "delete" = Ok complement) /\
  pages_to_keep "2" 3 "delete" = Ok [1; 3].
Proof.
  intros H complement.
  assert (forall p, p ∈ complement <-> 1 <= p <= total_pages /\ p ∉ S) as Hmem.
  { intros p. unfold complement. rewrite list_elem_of_filter, elem_of_range.
    split; intros [? ?]; split; first [assumption | lia]. }
  assert (StronglySorted Z.lt complement) as Hsorted.
  { apply StronglySorted_filter, range_increasing. }
  set (keep_pages := (list_to_set (Py.range 1 (total_pages + 1)) : gset Z)
                       ∖ list_to_set S).
  assert (forall p, p ∈ keep_pages <-> p ∈ complement) as Hkeep.
  { intros p. unfold keep_pages.
    rewrite Hmem, elem_of_difference, !elem_of_list_to_set, elem_of_range.
    split; intros [? ?]; split; first [assumption | lia]. }
  assert (pages_to_keep spec total_pages "delete" =
          if decide (keep_pages = ∅) then Raise (RaisedPageSpecError CannotDeleteAllPages)
          else Ok (Py.sorted keep_pages)) as ->.
  { unfold pages_to_keep. rewrite H. reflexivity. }
  split; [exact Hmem|]. split; [exact Hsorted|]. split; [|split].
  - intros E. destruct (decide (keep_pages = ∅)) as [|Hne]; [done|].
    destruct (set_choose_L _ Hne) as [x Hx]. apply Hkeep in Hx.
    rewrite E in Hx. by apply not_elem_of_nil in Hx.
  - intros Hne. destruct (decide (keep_pages = ∅)) as [He|_].
    + destruct complement as [|x c]; [done|].
      assert (x ∈ keep_pages) as Hx by (apply Hkeep; left).
      rewrite He in Hx. by apply not_elem_of_empty in Hx.
    + f_equal. apply increasing_unique; [apply sorted_increasing | exact Hsorted|].
      intros p. by rewrite sorted_elem_of.
  - vm_compute. reflexivity.
Qed.

Lemma delete_returns_sorted_complement_witness :
  parse_pagespec "2,4-5" 6 = Ok [2; 4; 5] /\
  pages_to_keep "2,4-5" 6 "delete" = Ok [1; 3; 6].
Proof.
  assert (parse_pagespec "2,4-5" 6 = Ok [2; 4; 5]) as Hparse
    by (vm_compute; reflexivity).
  split; [exact Hparse|].
  pose proof (delete_returns_sorted_complement "2,4-5" 6 [2; 4; 5] Hparse)
    as (_ & _ & _ & Hkeep & _).
  apply Hkeep. vm_compute. discriminate.
Defined.

(** C8. Whenever the specification parses, a mode other than ["extract"]
    and ["delete"] makes [pages_to_keep] raise [ValueError], which is not a
    [PageSpecError]. *)
Theorem unknown_mode_raises_value_error
        (spec : string) (total_pages : Z) (mode : string) (l : list Z) :
  parse_pagespec spec total_pages = Ok l ->
  mode <> "extract" -> mode <> "delete" ->
  pages_to_keep spec total_pages mode = Raise (RaisedValueError mode) /\
  forall e, pages_to_keep spec total_pages mode <> Raise (RaisedPageSpecError e).
Proof.
  intros H Hx Hd.
  assert (pages_to_keep spec total_pages mode = Raise (RaisedValueError mode)) as E.
  { unfold pages_to_keep. rewrite H.
    apply String.eqb_neq in Hx, Hd. by rewrite Hx, Hd. }
  split; [exact E|]. intros e. rewrite E. discriminate.
Qed.

Lemma unknown_mode_raises_value_error_witness :
  pages_to_keep "1-3" 5 "rotate" = Raise (RaisedValueError "rotate") /\
  forall e, pages_to_keep "1-3" 5 "rotate" <> Raise (RaisedPageSpecError e).
Proof.
  apply (unknown_mode_raises_value_error "1-3" 5 "rotate" [1; 2; 3]).
  - vm_compute. reflexivity.
  - discriminate.
  - discriminate.
Defined.

(** C9. Whenever [parse_pagespec] succeeds its result is strictly
    increasing, and extract mode returns that same list. *)
Theorem parse_pagespec_strictly_increasing
        (spec : string) (total_pages : Z) (l : list Z) :
  parse_pagespec spec total_pages = Ok l ->
  StronglySorted Z.lt l /\
  pages_to_keep spec total_pages "extract" = Ok l.
Proof.
  intros H. split.
  - apply parse_pagespec_ok_inv in H as (pages & _ & _ & _ & ->).
    apply sorted_increasing.
  - unfold pages_to_keep. by rewrite H.
Qed.

Lemma parse_pagespec_strictly_increasing_witness :
  StronglySorted Z.lt [2; 3; 4; 7; 9] /\
  pages_to_keep "9, 7,2-4,3" 9 "extract" = Ok [2; 3; 4; 7; 9].
Proof.
  apply (parse_pagespec_strictly_increasing "9, 7,2-4,3" 9).
  vm_compute. reflexivity.
Defined.

(** C7. [parse_pagespec] raises "Page specification cannot be empty"
    exactly when the input is empty or white space only; on any other input
    the call goes on to the token loop. *)
Theorem empty_specification_iff (spec : string) (total_pages : Z) :
  (parse_pagespec spec total_pages = Raise EmptySpecification <->
   spec = "" \/ whitespace_only spec) /\
  (~ whitespace_only spec ->
   parse_pagespec spec total_pages =
   match for_each (parse_part total_pages) ∅ (Py.split "," (Py.strip spec)) with
   | Raise e => Raise e
   | Ok pages => if decide (pages = ∅) then Raise NoValidPages else Ok (Py.sorted pages)
   end) /\
  parse_pagespec "" 5 = Raise EmptySpecification /\
  parse_pagespec "   " 5 = Raise EmptySpecification.
Proof.
  split; [|split; [apply parse_pagespec_not_blank | by split]].
  split.
  - intros H. right. destruct (whitespace_only_dec spec) as [Hw|Hw]; [exact Hw|].
    rewrite parse_pagespec_not_blank in H by done.
    destruct (for_each (parse_part total_pages) ∅ (tokens spec)) as [pages|e] eqn:Hl.
    + destruct (decide (pages = ∅)); discriminate.
    + injection H as ->.
      apply for_each_raise_inv in Hl as (st & part & _ & Hr).
      by apply parse_part_raise in Hr.
  - intros [->|Hw]; by apply parse_pagespec_blank.
Qed.

Lemma empty_specification_iff_witness :
  parse_pagespec (String "009" " ") 5 = Raise EmptySpecification /\
  parse_pagespec " 1" 5 = Ok [1].
Proof.
  split.
  - apply (proj2 (proj1 (empty_specification_iff (String "009" " ") 5))).
    right. reflexivity.
  - rewrite (proj1 (proj2 (empty_specification_iff " 1" 5))).
    + vm_compute. reflexivity.
    + discriminate.
Defined.

(** The token loop leaves the set empty only when every token is blank. *)
Lemma parse_parts_empty_inv (total_pages : Z) (parts : list string) :
  for_each (parse_part total_pages) ∅ parts = Ok ∅ ->
  Forall (fun t => Py.strip t = "") parts.
Proof.
  intros H. apply parse_parts_ok in H as (Hset & _ & Hne).
  destruct (decide (Forall (fun t => Py.strip t = "") parts)) as [|Hnot]; [done|].
  apply (not_Forall_Exists _) in Hnot. apply Hne in Hnot.
  destruct (concat (map pages_named_by parts)) as [|x named]; [done|].
  assert (x ∈ (∅ : gset Z)) as Hx.
  { rewrite Hset. apply elem_of_union_l, elem_of_list_to_set. left. }
  by apply not_elem_of_empty in Hx.
Qed.

(** C5. Blank tokens are skipped ([parse_pagespec(",,1,,", 5)] is [1]), and
    "No valid pages found" is raised exactly when the input is not white
    space only and every token is blank after trimming, i.e. the input is
    made of commas and white space. *)
Theorem no_valid_pages_iff (spec : string) (total_pages : Z) :
  parse_pagespec ",,1,," 5 = Ok [1] /\
  (forall (pages : gset Z) (part : string),
      Py.strip part = "" -> parse_part total_pages pages part = Ok pages) /\
  (parse_pagespec spec total_pages = Raise NoValidPages <->
   ~ whitespace_only spec /\
   Forall (fun t => Py.strip t = "") (Py.split "," (Py.strip spec))) /\
  (parse_pagespec spec total_pages = Raise NoValidPages <->
   ~ whitespace_only spec /\ commas_and_whitespace spec).
Proof.
  assert (parse_pagespec spec total_pages = Raise NoValidPages <->
          ~ whitespace_only spec /\ Forall (fun t => Py.strip t = "") (tokens spec))
    as Hiff.
  { split.
    - intros H. destruct (whitespace_only_dec spec) as [Hw|Hw].
      { rewrite parse_pagespec_blank in H by done. discriminate. }
      split; [exact Hw|]. rewrite parse_pagespec_not_blank in H by done.
      destruct (for_each (parse_part total_pages) ∅ (tokens spec)) as [pages|e] eqn:Hl.
      + destruct (decide (pages = ∅)) as [->|]; [|discriminate].
        by apply parse_parts_empty_inv in Hl.
      + injection H as ->.
        apply for_each_raise_inv in Hl as (st & part & _ & Hr).
        by apply parse_part_raise in Hr.
    - intros [Hw Hb]. rewrite parse_pagespec_not_blank by done.
      rewrite parse_parts_all_blank by done.
      by destruct (decide ((∅ : gset Z) = ∅)). }
  split; [vm_compute; reflexivity|].
  split; [intros pages part; apply parse_part_blank|].
  split; [exact Hiff|].
  by rewrite Hiff, tokens_all_blank.
Qed.

Lemma no_valid_pages_iff_witness :
  parse_pagespec " , ,," 5 = Raise NoValidPages /\
  parse_part 5 {[2]} "  " = Ok {[2]}.
Proof.
  split.
  - apply (proj2 (proj2 (proj2 (proj2 (no_valid_pages_iff " , ,," 5))))).
    split; [discriminate | reflexivity].
  - apply (proj1 (proj2 (no_valid_pages_iff "" 5))). reflexivity.
Defined.

(** ** A token inside a specification

    The token [part] stands at some place of the specification [spec];
    the tokens [before] it have been accepted and have produced the set
    [seen]. *)

Section AtToken.
Context (spec : string) (total_pages : Z).
Context (before after : list string) (part : string) (seen : gset Z).
Hypothesis Hspec : ~ whitespace_only spec.
Hypothesis Htokens : Py.split "," (Py.strip spec) = (before ++ part :: after)%list.
Hypothesis Hbefore : for_each (parse_part total_pages) ∅ before = Ok seen.

Lemma raises_at_token (e : PageSpecError) :
  parse_part total_pages seen part = Raise e ->
  parse_pagespec spec total_pages = Raise e.
Proof. by apply parse_pagespec_raises_at with before after. Qed.

(** C4. For a range token [start-stop] with [0 < start <= stop] the
    pages [start..stop] are checked against [total_pages] one after the
    other, in ascending order; when [stop] exceeds [total_pages] the call
    raises "Page ... exceeds total pages" for the first page of the range
    above [total_pages]. [parse_pagespec("5-10", 7)] fails on page 8. *)
Theorem range_fails_on_first_page_beyond_total (start stop : Z) :
  names_range part start stop ->
  let first_beyond := Z.max start (total_pages + 1) in
  parse_part total_pages seen part
  = for_each (add_range_page total_pages) seen (Py.range start (stop + 1)) /\
  (forall (pages : gset Z) (page : Z) (rest : list Z),
      for_each (add_range_page total_pages) pages (page :: rest)
      = if total_pages <? page then Raise (PageExceedsTotal page total_pages)
        else for_each (add_range_page total_pages) ({[page]} ∪ pages) rest) /\
  (stop <= total_pages ->
   parse_part total_pages seen part
   = Ok (list_to_set (Py.range start (stop + 1)) ∪ seen)) /\
  (total_pages < stop ->
   parse_pagespec spec total_pages = Raise (PageExceedsTotal first_beyond total_pages) /\
   start <= first_beyond <= stop /\ total_pages < first_beyond /\
   forall p, start <= p < first_beyond -> p <= total_pages) /\
  parse_pagespec "5-10" 7 = Raise (PageExceedsTotal 8 7).
Proof.
  intros Hn first_beyond.
  pose proof (parse_part_range total_pages seen part start stop Hn) as Hr.
  pose proof Hn as (a & b & _ & _ & _ & Hpos & Hle).
  split; [|split; [|split; [|split]]].
  - rewrite Hr. unfold Py.range. destruct (total_pages <? stop) eqn:Hlt.
    + symmetry. apply add_range_exceeds; lia.
    + symmetry. apply add_range_fits; lia.
  - intros pages page rest. simpl. unfold add_range_page at 1.
    by destruct (total_pages <? page).
  - intros Hfit. rewrite Hr. by destruct (total_pages <? stop) eqn:Hlt; [lia|].
  - intros Hex. split; [|split; [|split]].
    + apply raises_at_token. rewrite Hr.
      by destruct (total_pages <? stop) eqn:Hlt; [|lia].
    + unfold first_beyond. lia.
    + unfold first_beyond. lia.
    + unfold first_beyond. intros p Hp. lia.
  - vm_compute. reflexivity.
Qed.

(** C6. A token that is not blank and contains a hyphen is split on the
    hyphen. Unless the split gives exactly two sides, both non-empty after
    trimming, the call raises "Invalid range format"; with two non-empty
    sides of which one is not a number it raises "Invalid numbers in
    range". The token ["-"] alone has two empty sides and is an invalid
    range format. *)
Theorem hyphen_token_format_errors :
  Py.strip part <> "" ->
  Py.contains "-" (Py.strip part) = true ->
  (~ two_nonempty_sides part ->
   parse_pagespec spec total_pages = Raise (InvalidRangeFormat (Py.strip part))) /\
  (two_nonempty_sides part ->
   forall p, parse_part total_pages seen part <> Raise (InvalidRangeFormat p)) /\
  (forall a b : string,
      Py.split "-" (Py.strip part) = [a; b] ->
      Py.strip a <> "" -> Py.strip b <> "" ->
      Py.int (Py.strip a) = None \/ Py.int (Py.strip b) = None ->
      parse_pagespec spec total_pages = Raise (InvalidNumbersInRange (Py.strip part))) /\
  Py.split "-" "-" = [""; ""] /\
  parse_pagespec "-" total_pages = Raise (InvalidRangeFormat "-").
Proof.
  intros Hne Hc. apply is_empty_false in Hne.
  split; [|split; [|split; [|split]]].
  - intros Hnot. apply raises_at_token. unfold parse_part. rewrite Hne, Hc.
    destruct (Py.split "-" (Py.strip part)) as [|a [|b [|? ?]]] eqn:Hs; try reflexivity.
    destruct (Py.is_empty (Py.strip a) || Py.is_empty (Py.strip b)) eqn:He;
      [reflexivity|].
    exfalso. apply Hnot. exists a, b.
    apply orb_false_iff in He as [Ha Hb].
    split; [exact Hs|]. split; by apply is_empty_false.
  - intros (a & b & Hs & Ha & Hb) p. unfold parse_part. rewrite Hne, Hc, Hs.
    apply is_empty_false in Ha, Hb. rewrite Ha, Hb. simpl.
    destruct (Py.int (Py.strip a)) as [start|]; [|discriminate].
    destruct (Py.int (Py.strip b)) as [stop|]; [|discriminate].
    destruct ((start <=? 0) || (stop <=? 0)); [discriminate|].
    destruct (stop <? start); [discriminate|].
    intros (st & q & _ & Hr)%for_each_raise_inv. unfold add_range_page in Hr.
    destruct (total_pages <? q); discriminate.
  - intros a b Hs Ha Hb Hint. apply raises_at_token.
    unfold parse_part. rewrite Hne, Hc, Hs.
    apply is_empty_false in Ha, Hb. rewrite Ha, Hb. simpl.
    destruct Hint as [-> | Hi]; [reflexivity|].
    rewrite Hi. by destruct (Py.int (Py.strip a)).
  - reflexivity.
  - reflexivity.
Qed.

End AtToken.

Lemma range_fails_on_first_page_beyond_total_witness :
  names_range " 5 - 10 " 5 10 /\
  parse_pagespec "1, 5 - 10 ,2" 7 = Raise (PageExceedsTotal 8 7).
Proof.
  assert (names_range " 5 - 10 " 5 10) as Hn.
  { exists "5 ", " 10".
    split; [reflexivity|]. split; [reflexivity|]. split; [reflexivity | lia]. }
  split; [exact Hn|].
  pose proof (range_fails_on_first_page_beyond_total
                "1, 5 - 10 ,2" 7 ["1"] ["2"] " 5 - 10 " {[1]}
                ltac:(discriminate) ltac:(reflexivity) ltac:(vm_compute; reflexivity)
                5 10 Hn) as (_ & _ & _ & Hraise & _).
  apply Hraise. lia.
Defined.

Lemma hyphen_token_format_errors_witness :
  parse_pagespec "1,2-,3" 5 = Raise (InvalidRangeFormat "2-") /\
  parse_pagespec "1, 2-x" 5 = Raise (InvalidNumbersInRange "2-x").
Proof.
  split.
  - pose proof (hyphen_token_format_errors
                  "1,2-,3" 5 ["1"] ["3"] "2-" {[1]}
                  ltac:(discriminate) ltac:(reflexivity) ltac:(vm_compute; reflexivity)
                  ltac:(discriminate) ltac:(reflexivity)) as (Hformat & _).
    apply Hformat. intros (a & b & Hs & _ & Hb).
    injection Hs as _ <-. by apply Hb.
  - pose proof (hyphen_token_format_errors
                  "1, 2-x" 5 ["1"] [] " 2-x" {[1]}
                  ltac:(discriminate) ltac:(reflexivity) ltac:(vm_compute; reflexivity)
                  ltac:(discriminate) ltac:(reflexivity)) as (_ & _ & Hnumbers & _).
    apply (Hnumbers "2" "x"); [reflexivity | discriminate | discriminate |].
    right. reflexivity.
Defined.

(** ** A document without pages *)

Lemma parse_pagespec_only_commas (spec : string) (total_pages : Z) :
  ~ whitespace_only spec -> commas_and_whitespace spec ->
  parse_pagespec spec total_pages = Raise NoValidPages.
Proof.
  intros Hw Hc%tokens_all_blank. rewrite parse_pagespec_not_blank by done.
  rewrite parse_parts_all_blank by done.
  by destruct (decide ((∅ : gset Z) = ∅)).
Qed.

(** C10. With [total_pages = 0] every call of [parse_pagespec] raises a
    [PageSpecError]: blank input is an empty specification, input of commas
    and white space has no valid pages, and a token that names a page or a
    range is rejected because its first page, at least 1, exceeds 0; only
    blank tokens are accepted. Hence [pages_to_keep] raises a
    [PageSpecError] on such a document whatever the mode. *)
Theorem zero_page_document_always_fails (spec : string) :
  (exists e, parse_pagespec spec 0 = Raise e) /\
  (whitespace_only spec -> parse_pagespec spec 0 = Raise EmptySpecification) /\
  (~ whitespace_only spec -> commas_and_whitespace spec ->
   parse_pagespec spec 0 = Raise NoValidPages) /\
  (forall (pages : gset Z) (part : string) (page : Z),
      names_page part page ->
      parse_part 0 pages part = Raise (PageExceedsTotal page 0)) /\
  (forall (pages : gset Z) (part : string) (start stop : Z),
      names_range part start stop ->
      parse_part 0 pages part = Raise (PageExceedsTotal start 0)) /\
  (forall (pages pages' : gset Z) (part : string),
      parse_part 0 pages part = Ok pages' -> Py.strip part = "" /\ pages' = pages) /\
  (forall mode, exists e, pages_to_keep spec 0 mode = Raise (RaisedPageSpecError e)).
Proof.
  assert (exists e, parse_pagespec spec 0 = Raise e) as Hfail.
  { destruct (parse_pagespec spec 0) as [l|e] eqn:H; [exfalso | by exists e].
    apply parse_pagespec_ok_inv in H as (pages & _ & Hloop & Hne & _).
    apply parse_parts_ok in Hloop as (-> & Hall & _).
    destruct (set_choose_L _ Hne) as [x Hx].
    rewrite elem_of_union, elem_of_list_to_set in Hx.
    destruct Hx as [Hx|Hx]; [|by apply not_elem_of_empty in Hx].
    eapply Forall_forall in Hall; [|exact Hx]. simpl in Hall. lia. }
  split; [exact Hfail|].
  split; [apply parse_pagespec_blank|].
  split; [apply parse_pagespec_only_commas|].
  split; [|split; [|split]].
  - intros pages part page Hn. rewrite (parse_part_page _ _ _ _ Hn).
    destruct Hn as (_ & _ & Hpos). by destruct (0 <? page) eqn:E; [|lia].
  - intros pages part start stop Hn. rewrite (parse_part_range _ _ _ _ _ Hn).
    destruct Hn as (_ & _ & _ & _ & _ & Hpos & Hle).
    destruct (0 <? stop) eqn:E; [|lia]. do 2 f_equal. lia.
  - intros pages pages' part H.
    apply parse_part_ok_inv in H
      as [H | [(page & Hn & Hle & _) | (start & stop & Hn & Hle & _)]].
    + exact H.
    + destruct Hn as (_ & _ & Hpos). lia.
    + destruct Hn as (_ & _ & _ & _ & _ & Hpos & Hss). lia.
  - intros mode. destruct Hfail as [e He]. exists e.
    unfold pages_to_keep. by rewrite He.
Qed.

Lemma zero_page_document_always_fails_witness :
  parse_pagespec " ,, " 0 = Raise NoValidPages /\
  parse_part 0 ∅ " 3 " = Raise (PageExceedsTotal 3 0) /\
  exists e, pages_to_keep "1-2" 0 "delete" = Raise (RaisedPageSpecError e).
Proof.
  split; [|split].
  - apply (proj1 (proj2 (proj2 (zero_page_document_always_fails " ,, "))));
      [discriminate | reflexivity].
  - apply (proj1 (proj2 (proj2 (proj2 (zero_page_document_always_fails ""))))).
    split; [reflexivity|]. split; [reflexivity | lia].
  - apply (proj2 (proj2 (proj2 (proj2 (proj2 (proj2
             (zero_page_document_always_fails "1-2"))))))).
Defined.

(** * Properties of the rest of the application *)

(** ** More on the string builtins *)

Lemma index_last_split (sep : ascii) (s : string) :
  exists r, Py.index_last (Py.split sep s) = Some r /\ Py.contains sep r = false.
Proof.
  unfold Py.index_last. induction s as [|c s (r & Hr & Hc)]; simpl.
  - by exists "".
  - destruct (Ascii.eqb c sep) eqn:E.
    + exists r. rewrite last_cons, Hr. done.
    + pose proof (split_not_nil sep s) as Hne.
      destruct (Py.split sep s) as [|h [|h' t]]; [done| |].
      * simpl in *. injection Hr as <-. exists (String c h). simpl. by rewrite E.
      * exists r. by rewrite last_cons_cons in *.
Qed.

Lemma split_app_sep (sep : ascii) (a b : string) :
  Py.split sep (a ++ String sep b) = (Py.split sep a ++ Py.split sep b)%list.
Proof.
  induction a as [|c a IH]; simpl.
  - by rewrite Ascii.eqb_refl.
  - destruct (Ascii.eqb c sep); [by rewrite IH|].
    rewrite IH. pose proof (split_not_nil sep a) as Hne.
    by destruct (Py.split sep a).
Qed.

Lemma index_last_split_app (sep : ascii) (a b : string) :
  Py.index_last (Py.split sep (a ++ String sep b)) = Py.index_last (Py.split sep b).
Proof.
  unfold Py.index_last. rewrite split_app_sep, last_app.
  pose proof (split_not_nil sep b) as Hne.
  destruct (last (Py.split sep b)) eqn:E; [done|].
  apply last_None in E. contradiction.
Qed.

Lemma index_last_split_without (sep : ascii) (s : string) :
  Py.contains sep s = false -> Py.index_last (Py.split sep s) = Some s.
Proof. intros H. by rewrite split_without_sep. Qed.

Lemma all_chars_app (p : ascii -> bool) (a b : string) :
  all_chars p (a ++ b) = all_chars p a && all_chars p b.
Proof. induction a as [|c a IH]; simpl; [done|]. by rewrite IH, andb_assoc. Qed.

Lemma all_chars_not_contains (p : ascii -> bool) (c : ascii) (s : string) :
  all_chars p s = true -> p c = false -> Py.contains c s = false.
Proof.
  intros Hs Hc. induction s as [|d s IH]; simpl in *; [done|].
  apply andb_true_iff in Hs as [Hd Hs]. rewrite (IH Hs), orb_false_r.
  destruct (Ascii.eqb_spec d c) as [->|]; [congruence | done].
Qed.

Lemma re_sub_char_safe (p : ascii -> bool) (repl : ascii) (s : string) :
  p repl = true ->
  all_chars p (Py.re_sub_char (fun c => negb (p c)) repl s) = true.
Proof.
  intros Hr. induction s as [|c s IH]; simpl; [done|].
  rewrite IH, andb_true_r. by destruct (p c) eqn:E.
Qed.

Lemma re_sub_char_id (p : ascii -> bool) (repl : ascii) (s : string) :
  all_chars p s = true -> Py.re_sub_char (fun c => negb (p c)) repl s = s.
Proof.
  induction s as [|c s IH]; simpl; [done|].
  intros [Hc Hs]%andb_true_iff. by rewrite Hc, IH.
Qed.

Section StripChars.
Context (chars : string).

Lemma lstrip_chars_first (s : string) :
  first_char_in chars (Py.lstrip_chars chars s) = false.
Proof.
  induction s as [|c s IH]; simpl; [done|].
  destruct (Py.contains c chars) eqn:E; [exact IH | simpl; exact E].
Qed.

Lemma lstrip_chars_id (s : string) :
  first_char_in chars s = false -> Py.lstrip_chars chars s = s.
Proof. destruct s as [|c s]; simpl; [done|]. by intros ->. Qed.

Lemma rstrip_chars_first (s : string) :
  first_char_in chars s = false -> first_char_in chars (Py.rstrip_chars chars s) = false.
Proof.
  destruct s as [|c s]; simpl; [done|]. intros E.
  destruct (Py.rstrip_chars chars s); simpl; by rewrite E.
Qed.

Lemma rstrip_chars_id (s : string) :
  last_char_in chars s = false -> Py.rstrip_chars chars s = s.
Proof.
  induction s as [|c s IH]; simpl; [done|].
  destruct s as [|d s]; [by intros -> |].
  intros H. by rewrite (IH H).
Qed.

Lemma all_chars_lstrip_chars (p : ascii -> bool) (s : string) :
  all_chars p s = true -> all_chars p (Py.lstrip_chars chars s) = true.
Proof.
  induction s as [|c s IH]; simpl; [done|]. intros H.
  destruct (Py.contains c chars); [|exact H].
  apply andb_true_iff in H as [_ H]. auto.
Qed.

Lemma all_chars_rstrip_chars (p : ascii -> bool) (s : string) :
  all_chars p s = true -> all_chars p (Py.rstrip_chars chars s) = true.
Proof.
  induction s as [|c s IH]; simpl; [done|].
  intros [Hc Hs]%andb_true_iff. specialize (IH Hs).
  destruct (Py.rstrip_chars chars s).
  - destruct (Py.contains c chars); simpl; [done | by rewrite Hc].
  - simpl in *. by rewrite Hc, IH.
Qed.

Lemma strip_chars_empty (s : string) :
  all_chars (fun c => Py.contains c chars) s = true -> Py.strip_chars chars s = "".
Proof.
  intros H. unfold Py.strip_chars.
  assert (Py.lstrip_chars chars s = "") as ->; [|done].
  induction s as [|c s IH]; simpl in *; [done|].
  apply andb_true_iff in H as [-> H]. auto.
Qed.

End StripChars.

Lemma lower_app (a b : string) : Py.lower (a ++ b) = Py.lower a ++ Py.lower b.
Proof. induction a as [|c a IH]; simpl; [done|]. by rewrite IH. Qed.

Lemma endswith_unfold (s suffix : string) :
  Py.endswith s suffix =
  String.eqb s suffix ||
  match s with
  | EmptyString => false
  | String _ s' => Py.endswith s' suffix
  end.
Proof. by destruct s. Qed.

Lemma endswith_app (a suffix : string) : Py.endswith (a ++ suffix) suffix = true.
Proof.
  induction a as [|c a IH].
  - change ("" ++ suffix) with suffix.
    by rewrite endswith_unfold, String.eqb_refl.
  - change (String c a ++ suffix) with (String c (a ++ suffix)).
    rewrite endswith_unfold, IH. apply orb_true_r.
Qed.

Lemma endswith_nonempty (s suffix : string) :
  Py.endswith s suffix = true -> suffix <> "" -> s <> "".
Proof. intros H Hs ->. simpl in H. destruct suffix; [done | discriminate]. Qed.

(** A name that ends in [.pdf], whatever the case, does not end with a dot
    or a blank. *)
Lemma endswith_pdf_last (s : string) :
  Py.endswith (Py.lower s) ".pdf" = true -> last_char_in ". " s = false.
Proof.
  induction s as [|c s IH]; [done|].
  change (Py.lower (String c s)) with (String (Py.lower_char c) (Py.lower s)).
  rewrite endswith_unfold. intros [H|H]%orb_true_iff.
  - apply String.eqb_eq in H.
    destruct s as [|c1 [|c2 [|c3 [|c4 s]]]]; try discriminate.
    simpl in H. injection H as _ _ _ H.
    cbn [last_char_in Py.contains].
    destruct (Ascii.eqb_spec "." c3) as [<-|_]; [discriminate|].
    destruct (Ascii.eqb_spec " " c3) as [<-|_]; [discriminate|]. done.
  - specialize (IH H). destruct s as [|d s]; [discriminate|]. exact IH.
Qed.

Lemma all_chars_impl (p q : ascii -> bool) (s : string) :
  (forall c, p c = true -> q c = true) -> all_chars p s = true -> all_chars q s = true.
Proof.
  intros Hpq. induction s as [|c s IH]; simpl; [done|].
  intros [Hc Hs]%andb_true_iff. by rewrite (Hpq c Hc), IH.
Qed.

Lemma first_char_in_app (chars a b : string) :
  a <> "" -> first_char_in chars (a ++ b) = first_char_in chars a.
Proof. by destruct a. Qed.

Lemma index_last_split_suffix (sep : ascii) (a b : string) :
  Py.contains sep b = false ->
  exists t, Py.index_last (Py.split sep (a ++ b)) = Some (t ++ b).
Proof.
  intros Hb. unfold Py.index_last. induction a as [|c a (t & Ht)]; simpl.
  - exists "". by rewrite split_without_sep.
  - pose proof (split_not_nil sep (a ++ b)) as Hne.
    destruct (Ascii.eqb c sep).
    + exists t. rewrite last_cons, Ht. done.
    + destruct (Py.split sep (a ++ b)) as [|h [|h' tl]]; [done| |].
      * simpl in Ht. injection Ht as ->. by exists (String c t).
      * exists t. by rewrite last_cons_cons in *.
Qed.

(** ** [sanitize_filename] *)

Lemma sanitize_filename_component (filename : string) :
  exists after_backslash base,
    Py.index_last (Py.split "\" filename) = Some after_backslash /\
    Py.index_last (Py.split "/" after_backslash) = Some base /\
    sanitize_filename filename = Some (sanitize_component base).
Proof.
  destruct (index_last_split "\" filename) as (a & Ha & _).
  destruct (index_last_split "/" a) as (b & Hb & _).
  exists a, b. split; [exact Ha|]. split; [exact Hb|].
  unfold sanitize_filename. rewrite Ha. simpl. rewrite Hb. reflexivity.
Qed.

Lemma sanitize_filename_plain (filename : string) :
  Py.contains "/" filename = false -> Py.contains "\" filename = false ->
  sanitize_filename filename = Some (sanitize_component filename).
Proof.
  intros Hs Hb. unfold sanitize_filename.
  rewrite (index_last_split_without _ _ Hb). simpl.
  rewrite (index_last_split_without _ _ Hs). reflexivity.
Qed.

Lemma sanitize_component_clean (base : string) :
  clean_filename (sanitize_component base) = true.
Proof.
  unfold sanitize_component.
  set (x := Py.strip_chars ". " (Py.re_sub_char _ "_" base)).
  assert (all_chars filename_safe x = true) as Hsafe.
  { unfold x, Py.strip_chars.
    apply all_chars_rstrip_chars, all_chars_lstrip_chars.
    by apply (re_sub_char_safe filename_safe). }
  assert (first_char_in ". " x = false) as Hfirst.
  { unfold x, Py.strip_chars. apply rstrip_chars_first, lstrip_chars_first. }
  clearbody x.
  set (y := if Py.is_empty x then "document.pdf" else x).
  assert (all_chars filename_safe y = true /\ first_char_in ". " y = false /\ y <> "")
    as (Hy1 & Hy2 & Hy3).
  { unfold y. destruct x as [|c x'].
    { split; [vm_compute; reflexivity|]. split; [reflexivity | discriminate]. }
    split; [exact Hsafe|]. split; [exact Hfirst | discriminate]. }
  clearbody y.
  unfold clean_filename.
  destruct (Py.endswith (Py.lower y) ".pdf") eqn:E; simpl.
  - by rewrite Hy1, Hy2, E.
  - rewrite all_chars_app, Hy1, first_char_in_app, Hy2, lower_app by done.
    change (Py.lower ".pdf") with ".pdf". by rewrite endswith_app.
Qed.

Lemma sanitize_component_id (s : string) :
  clean_filename s = true -> sanitize_component s = s.
Proof.
  unfold clean_filename. intros [[Hsafe Hfirst%negb_true_iff]%andb_true_iff Hend]%andb_true_iff.
  unfold sanitize_component. rewrite re_sub_char_id by done.
  unfold Py.strip_chars. rewrite lstrip_chars_id by done.
  rewrite rstrip_chars_id by (by apply endswith_pdf_last).
  assert (s <> "") as Hne by (intros ->; discriminate Hend).
  apply is_empty_false in Hne. by rewrite Hne, Hend.
Qed.

Lemma clean_filename_no_separator (s : string) :
  clean_filename s = true ->
  Py.contains "/" s = false /\ Py.contains "\" s = false.
Proof.
  unfold clean_filename. intros [[Hsafe _]%andb_true_iff _]%andb_true_iff.
  split; by eapply all_chars_not_contains.
Qed.

(** X1. [sanitize_filename] always returns a name, never raises; the name
    has only word characters, white space, hyphens and dots, so neither
    [/] nor [\]; it does not begin with a dot or a blank, it is not empty
    and it ends in [.pdf] in some case. *)
Theorem sanitize_filename_safe (filename : string) :
  exists r,
    sanitize_filename filename = Some r /\
    all_chars filename_safe r = true /\
    Py.contains "/" r = false /\ Py.contains "\" r = false /\
    first_char_in ". " r = false /\
    Py.endswith (Py.lower r) ".pdf" = true /\
    r <> "".
Proof.
  destruct (sanitize_filename_component filename) as (a & b & _ & _ & ->).
  exists (sanitize_component b). split; [done|].
  pose proof (sanitize_component_clean b) as Hc.
  destruct (clean_filename_no_separator _ Hc) as [Hs Hb].
  unfold clean_filename in Hc.
  apply andb_true_iff in Hc as [[Hsafe Hfirst%negb_true_iff]%andb_true_iff Hend].
  repeat split; try done. intros E. rewrite E in Hend. discriminate Hend.
Qed.

(** X2. The names [sanitize_filename] returns unchanged are exactly the
    clean ones: safe characters only, no dot or blank in front, [.pdf] at
    the end in any case. *)
Theorem sanitize_filename_fixed_points (filename : string) :
  sanitize_filename filename = Some filename <-> clean_filename filename = true.
Proof.
  split.
  - intros H. destruct (sanitize_filename_component filename) as (a & b & _ & _ & E).
    rewrite E in H. injection H as <-. apply sanitize_component_clean.
  - intros H. destruct (clean_filename_no_separator _ H) as [Hs Hb].
    rewrite sanitize_filename_plain by done. by rewrite sanitize_component_id.
Qed.

Lemma sanitize_filename_fixed_points_witness :
  sanitize_filename "My report-2 v1.0.PDF" = Some "My report-2 v1.0.PDF".
Proof. apply sanitize_filename_fixed_points. reflexivity. Defined.

(** X3. [sanitize_filename] is idempotent: its result is a name it returns
    unchanged. *)
Theorem sanitize_filename_idempotent (filename : string) :
  exists r, sanitize_filename filename = Some r /\ sanitize_filename r = Some r.
Proof.
  destruct (sanitize_filename_component filename) as (a & b & _ & _ & ->).
  exists (sanitize_component b). split; [done|].
  pose proof (sanitize_component_clean b) as Hc.
  destruct (clean_filename_no_separator _ Hc) as [Hs Hb].
  rewrite sanitize_filename_plain by done. by rewrite sanitize_component_id.
Qed.

(** X4. Directories are dropped: in front of a name without [/] and [\],
    any path ending in [/] or in [\] changes nothing. *)
Theorem sanitize_filename_drops_directories (dir name : string) :
  Py.contains "/" name = false -> Py.contains "\" name = false ->
  sanitize_filename (dir ++ String "/" name) = sanitize_filename name /\
  sanitize_filename (dir ++ String "\" name) = sanitize_filename name.
Proof.
  intros Hs Hb. rewrite (sanitize_filename_plain name) by done. split.
  - assert (Py.contains "\" (String "/" name) = false) as Hb' by (simpl; by rewrite Hb).
    destruct (index_last_split_suffix "\" dir (String "/" name) Hb') as (t & Ht).
    unfold sanitize_filename. rewrite Ht. simpl.
    rewrite index_last_split_app, (index_last_split_without _ _ Hs). reflexivity.
  - unfold sanitize_filename.
    rewrite index_last_split_app, (index_last_split_without _ _ Hb). simpl.
    rewrite (index_last_split_without _ _ Hs). reflexivity.
Qed.

Lemma sanitize_filename_drops_directories_witness :
  sanitize_filename ("../../etc/" ++ String "/" "passwd") = Some "passwd.pdf" /\
  sanitize_filename ("C:\Users\me" ++ String "\" "a b.pdf") = Some "a b.pdf".
Proof.
  destruct (sanitize_filename_drops_directories "../../etc/" "passwd"
              ltac:(reflexivity) ltac:(reflexivity)) as [H1 _].
  destruct (sanitize_filename_drops_directories "C:\Users\me" "a b.pdf"
              ltac:(reflexivity) ltac:(reflexivity)) as [_ H2].
  split; [rewrite H1 | rewrite H2]; reflexivity.
Defined.

(** X5. A name made of dots and blanks only, the empty name included,
    becomes [document.pdf]; with X4 so does every path whose last
    component is such a name. *)
Theorem sanitize_filename_default (filename : string) :
  all_chars (fun c => Py.contains c ". ") filename = true ->
  sanitize_filename filename = Some "document.pdf".
Proof.
  intros H.
  assert (all_chars filename_safe filename = true) as Hsafe.
  { revert H. apply all_chars_impl. intros c Hc.
    cbn [Py.contains] in Hc. rewrite orb_false_r in Hc.
    apply orb_true_iff in Hc as [<-%Ascii.eqb_eq | <-%Ascii.eqb_eq]; reflexivity. }
  rewrite sanitize_filename_plain by (by eapply all_chars_not_contains).
  unfold sanitize_component. rewrite re_sub_char_id by done.
  by rewrite strip_chars_empty.
Qed.

Lemma sanitize_filename_default_witness :
  sanitize_filename ".. ." = Some "document.pdf".
Proof. apply sanitize_filename_default. reflexivity. Defined.

(** ** [is_valid_pdf] and [validate_upload_file] *)

Lemma is_valid_pdf_prefix (file_data : bytes) :
  is_valid_pdf file_data = true <-> exists rest, file_data = (PDF_MAGIC ++ rest)%list.
Proof.
  unfold is_valid_pdf. split.
  - destruct (length file_data <? 5)%nat; [discriminate|].
    intros H%bool_decide_eq_true. exists (drop 5 file_data).
    by rewrite <- H, take_drop.
  - intros [rest ->]. reflexivity.
Qed.

Lemma is_valid_pdf_take (n : nat) (file_data : bytes) :
  (5 <= n)%nat -> is_valid_pdf (take n file_data) = is_valid_pdf file_data.
Proof.
  intros Hn. unfold is_valid_pdf. rewrite length_take, take_take.
  replace (5 `min` n)%nat with 5%nat by lia.
  destruct (Nat.ltb_spec (length file_data) 5) as [Hlt|Hge].
  - by destruct (Nat.ltb_spec (n `min` length file_data) 5) as [_|?]; [|lia].
  - by destruct (Nat.ltb_spec (n `min` length file_data) 5) as [?|_]; [lia|].
Qed.

(** X6. [is_valid_pdf] accepts exactly the data that begin with the five
    bytes [%PDF-]; it looks at nothing else, so checking any prefix of at
    least five bytes, such as the first kilobyte, gives the same answer. *)
Theorem is_valid_pdf_magic (file_data : bytes) :
  (is_valid_pdf file_data = true <->
   exists rest, file_data = (PDF_MAGIC ++ rest)%list) /\
  (forall n, (5 <= n)%nat -> is_valid_pdf (take n file_data) = is_valid_pdf file_data).
Proof.
  split; [apply is_valid_pdf_prefix|]. intros n. apply is_valid_pdf_take.
Qed.

Lemma validate_header_check (content : bytes) :
  (length content <? 5)%nat || negb (bool_decide (take 5 content = PDF_MAGIC))
  = negb (is_valid_pdf content).
Proof. unfold is_valid_pdf. by destruct (length content <? 5)%nat. Qed.

(** X7. [validate_upload_file] returns the content it read, unchanged,
    exactly when the content is not empty, has at most [MAX_FILE_SIZE]
    bytes and passes [is_valid_pdf]; file name and MIME type play no
    part. *)
Theorem validate_upload_file_accepts (file : UploadFile) (content : bytes) :
  validate_upload_file file = Ok content <->
  content = upload_content file /\
  0 < Z.of_nat (length content) <= MAX_FILE_SIZE /\
  is_valid_pdf content = true.
Proof.
  unfold validate_upload_file. rewrite validate_header_check.
  destruct (Z.ltb_spec MAX_FILE_SIZE (Z.of_nat (length (upload_content file)))) as [Hbig|Hfit].
  { split; [discriminate|]. intros (-> & ? & _). lia. }
  destruct (Nat.eqb_spec (length (upload_content file)) 0) as [Hz|Hnz].
  { split; [discriminate|]. intros (-> & ? & _). lia. }
  destruct (is_valid_pdf (upload_content file)) eqn:Hv; simpl.
  - split.
    + intros [= <-]. repeat split; [lia | done | done].
    + by intros (-> & _ & _).
  - split; [discriminate|]. intros (-> & _ & ?). congruence.
Qed.

Lemma validate_upload_file_accepts_witness :
  validate_upload_file
    {| upload_filename := Some "a.pdf"; upload_content_type := Some "text/plain";
       upload_content := [x25; x50; x44; x46; x2d; x31; x2e; x37] |}
  = Ok [x25; x50; x44; x46; x2d; x31; x2e; x37].
Proof.
  apply validate_upload_file_accepts.
  split; [reflexivity|]. split; [vm_compute; split; [reflexivity | discriminate] | reflexivity].
Defined.

(** X8. The rejections of [validate_upload_file], in the order of the
    checks: more than [MAX_FILE_SIZE] bytes is status 413 whatever the
    content; otherwise an empty upload is status 400 "Uploaded file is
    empty"; otherwise content that fails [is_valid_pdf] is status 400
    "File is not a valid PDF (missing PDF header)". No other status is
    raised. *)
Theorem validate_upload_file_rejects (file : UploadFile) :
  let n := Z.of_nat (length (upload_content file)) in
  (MAX_FILE_SIZE < n ->
   validate_upload_file file =
   Raise {| status_code := 413; detail := "File too large. Maximum size is 100 MB" |}) /\
  (n = 0 ->
   validate_upload_file file =
   Raise {| status_code := 400; detail := "Uploaded file is empty" |}) /\
  (0 < n <= MAX_FILE_SIZE -> is_valid_pdf (upload_content file) = false ->
   validate_upload_file file =
   Raise {| status_code := 400;
            detail := "File is not a valid PDF (missing PDF header)" |}) /\
  (forall e, validate_upload_file file = Raise e ->
             (status_code e = 413 /\ MAX_FILE_SIZE < n) \/
             (status_code e = 400 /\ n <= MAX_FILE_SIZE)).
Proof.
  intros n. unfold validate_upload_file. rewrite validate_header_check. fold n.
  assert (0 < MAX_FILE_SIZE) as Hmax by reflexivity.
  assert (0 <= n) as Hn by (unfold n; lia).
  destruct (Z.ltb_spec MAX_FILE_SIZE n) as [Hbig|Hfit].
  { split; [intros _; reflexivity|]. split; [lia|]. split; [lia|].
    intros e [= <-]. left. by split. }
  split; [lia|].
  destruct (Nat.eqb_spec (length (upload_content file)) 0) as [Hz|Hnz].
  { split; [done|]. split; [lia|]. intros e [= <-]. right. by split. }
  split; [lia|].
  destruct (is_valid_pdf (upload_content file)); simpl.
  - split; [discriminate | discriminate].
  - split; [done|]. intros e [= <-]. right. by split.
Qed.

Lemma validate_upload_file_rejects_witness :
  validate_upload_file
    {| upload_filename := Some "a.pdf"; upload_content_type := Some "application/pdf";
       upload_content := [x50; x4b; x03; x04; x14; x00] |}
  = Raise {| status_code := 400;
             detail := "File is not a valid PDF (missing PDF header)" |}.
Proof.
  apply (validate_upload_file_rejects
           {| upload_filename := Some "a.pdf";
              upload_content_type := Some "application/pdf";
              upload_content := [x50; x4b; x03; x04; x14; x00] |}).
  - vm_compute. split; [reflexivity | discriminate].
  - reflexivity.
Defined.

(** ** [get_client_ip] *)

Lemma index_first_split (sep : ascii) (s : string) :
  exists h, Py.index_first (Py.split sep s) = Some h /\ Py.contains sep h = false.
Proof.
  unfold Py.index_first. induction s as [|c s (h & Hh & Hc)]; simpl.
  - by exists "".
  - destruct (Ascii.eqb c sep) eqn:E; [by exists ""|].
    destruct (Py.split sep s) as [|h' t]; [done|].
    simpl in Hh. injection Hh as ->. exists (String c h). simpl. by rewrite E.
Qed.

Lemma index_first_split_app (sep : ascii) (a rest : string) :
  Py.contains sep a = false ->
  Py.index_first (Py.split sep (a ++ String sep rest)) = Some a.
Proof. intros Ha. by rewrite split_app_sep, split_without_sep. Qed.

Lemma contains_all_chars (sep : ascii) (s : string) :
  Py.contains sep s = false <-> all_chars (fun c => negb (Ascii.eqb c sep)) s = true.
Proof.
  induction s as [|c s IH]; simpl; [done|].
  rewrite orb_false_iff, andb_true_iff, negb_true_iff, IH. done.
Qed.

Lemma all_chars_strip_sub (p : ascii -> bool) (s : string) :
  all_chars p s = true -> all_chars p (Py.strip s) = true.
Proof.
  intros H. unfold Py.strip.
  assert (all_chars p (Py.lstrip s) = true) as Hl.
  { induction s as [|c s IH]; simpl in *; [done|].
    destruct (Py.isspace c); [|exact H].
    apply andb_true_iff in H as [_ H]. auto. }
  clear H. induction (Py.lstrip s) as [|c t IH]; simpl in *; [done|].
  apply andb_true_iff in Hl as [Hc Ht]. specialize (IH Ht).
  destruct (Py.rstrip t).
  - destruct (Py.isspace c); simpl; [done | by rewrite Hc].
  - simpl in *. by rewrite Hc, IH.
Qed.

Lemma rstrip_idempotent (s : string) : Py.rstrip (Py.rstrip s) = Py.rstrip s.
Proof.
  induction s as [|c s IH]; simpl; [done|].
  destruct (Py.rstrip s) as [|d r] eqn:E.
  - destruct (Py.isspace c) eqn:Hc; simpl; [done | by rewrite Hc].
  - change (Py.rstrip (String c (String d r)))
      with (match Py.rstrip (String d r) with
            | EmptyString => if Py.isspace c then EmptyString else String c EmptyString
            | r' => String c r'
            end).
    by rewrite IH.
Qed.

Lemma strip_idempotent (s : string) : Py.strip (Py.strip s) = Py.strip s.
Proof.
  unfold Py.strip.
  assert (forall t, Py.lstrip (Py.lstrip t) = Py.lstrip t) as Hl.
  { induction t as [|c t IH]; simpl; [done|].
    destruct (Py.isspace c) eqn:Hc; [exact IH | simpl; by rewrite Hc]. }
  assert (forall t, Py.lstrip t = t -> Py.lstrip (Py.rstrip t) = Py.rstrip t) as Hr.
  { intros [|c t]; simpl; [done|].
    destruct (Py.isspace c) eqn:Hc.
    - intros E. exfalso.
      assert (String.length (Py.lstrip t) <= String.length t)%nat as Hlen.
      { clear. induction t as [|d t IH]; simpl; [lia|].
        destruct (Py.isspace d); simpl; lia. }
      rewrite E in Hlen. simpl in Hlen. lia.
    - intros _. destruct (Py.rstrip t); simpl; by rewrite Hc. }
  rewrite Hr by apply Hl. by rewrite rstrip_idempotent.
Qed.

(** X9. When the request carries a non-empty [X-Forwarded-For] header,
    [get_client_ip] returns the text before its first comma, trimmed (the
    whole header, trimmed, when it has no comma), whatever [X-Real-IP] and
    the peer address are. *)
Theorem get_client_ip_first_hop (request : Request) (forwarded : string) :
  headers request !! "X-Forwarded-For" = Some forwarded ->
  forwarded <> "" ->
  (forall a rest, forwarded = a ++ String "," rest -> Py.contains "," a = false ->
                  get_client_ip request = Some (Py.strip a)) /\
  (Py.contains "," forwarded = false ->
   get_client_ip request = Some (Py.strip forwarded)).
Proof.
  intros Hf Hne. unfold get_client_ip. rewrite Hf.
  destruct forwarded as [|c f]; [done|]. split.
  - intros a rest -> Ha. by rewrite index_first_split_app.
  - intros Hc. by rewrite split_without_sep.
Qed.

Lemma get_client_ip_first_hop_witness :
  get_client_ip proxied_request = Some "203.0.113.7".
Proof.
  destruct (get_client_ip_first_hop proxied_request " 203.0.113.7 , 10.0.0.1"
              ltac:(vm_compute; reflexivity) ltac:(discriminate)) as [H _].
  apply (H " 203.0.113.7 " " 10.0.0.1"); reflexivity.
Defined.

(** X10. With a non-empty [X-Forwarded-For] header the address returned by
    [get_client_ip] has no comma and no white space at either end; it is
    the empty string exactly when the header has only white space before
    its first comma. *)
Theorem get_client_ip_forwarded_shape (request : Request) (forwarded : string) :
  headers request !! "X-Forwarded-For" = Some forwarded ->
  forwarded <> "" ->
  exists first ip,
    Py.index_first (Py.split "," forwarded) = Some first /\
    get_client_ip request = Some ip /\
    Py.contains "," ip = false /\
    Py.strip ip = ip /\
    (ip = "" <-> whitespace_only first).
Proof.
  intros Hf Hne. unfold get_client_ip. rewrite Hf.
  destruct forwarded as [|c f]; [done|].
  destruct (index_first_split "," (String c f)) as (first & Hfirst & Hc).
  exists first, (Py.strip first). rewrite Hfirst. simpl.
  split; [done|]. split; [done|]. split; [|split].
  - apply contains_all_chars, all_chars_strip_sub. by apply contains_all_chars.
  - apply strip_idempotent.
  - apply strip_empty.
Qed.

Lemma get_client_ip_forwarded_shape_witness :
  exists first ip,
    Py.index_first (Py.split "," " ,10.0.0.1") = Some first /\
    get_client_ip blank_hop_request = Some ip /\
    Py.contains "," ip = false /\
    Py.strip ip = ip /\
    (ip = "" <-> whitespace_only first).
Proof.
  apply (get_client_ip_forwarded_shape blank_hop_request " ,10.0.0.1").
  - vm_compute. reflexivity.
  - discriminate.
Defined.

(** ** [check_rate_limit] *)

Section RateLimitFacts.
Context {time : Type} (within_window : time -> time -> bool).

Lemma check_rate_limit_lookup (rate_tracker : gmap string (list time))
      (now : time) (client_ip : string) :
  let recent := filter (fun t => within_window now t = true)
                       (default [] (rate_tracker !! client_ip)) in
  (check_rate_limit within_window rate_tracker now client_ip).2 !! client_ip =
  Some (if (check_rate_limit within_window rate_tracker now client_ip).1 then (recent ++ [now])%list else recent) /\
  ((check_rate_limit within_window rate_tracker now client_ip).1 = true <-> (length recent < RATE_LIMIT)%nat).
Proof.
  intros recent. unfold check_rate_limit. fold recent.
  destruct (Nat.leb_spec RATE_LIMIT (length recent)); simpl.
  - rewrite lookup_insert_eq. split; [done|]. split; [discriminate | lia].
  - rewrite lookup_insert_eq. split; [done|]. split; [done | done].
Qed.

Lemma check_rate_limit_other (rate_tracker : gmap string (list time))
      (now : time) (client_ip other : string) :
  other <> client_ip ->
  (check_rate_limit within_window rate_tracker now client_ip).2 !! other = rate_tracker !! other.
Proof.
  intros Hne. unfold check_rate_limit.
  destruct (RATE_LIMIT <=? length _)%nat; simpl;
    by rewrite ?lookup_insert_ne by done.
Qed.

Lemma check_rate_limit_bounded (rate_tracker : gmap string (list time))
      (now : time) (client_ip : string) :
  bounded rate_tracker -> bounded (check_rate_limit within_window rate_tracker now client_ip).2.
Proof.
  intros Hb ip l. destruct (decide (ip = client_ip)) as [->|Hne].
  - destruct (check_rate_limit_lookup rate_tracker now client_ip) as [Hl Hd].
    rewrite Hl. intros [= <-].
    destruct (check_rate_limit within_window rate_tracker now client_ip).1.
    + rewrite length_app. simpl. destruct Hd as [Hd _]. specialize (Hd eq_refl). lia.
    + etrans; [apply sublist_length, sublist_filter|].
      destruct (rate_tracker !! client_ip) as [l0|] eqn:E; simpl.
      * by eapply Hb.
      * unfold RATE_LIMIT. lia.
  - rewrite check_rate_limit_other by done. apply Hb.
Qed.

Lemma serve_all_cons (rate_tracker : gmap string (list time)) (now : time)
      (client_ip : string) (rest : list (time * string)) :
  serve_all within_window rate_tracker ((now, client_ip) :: rest) =
  ((check_rate_limit within_window rate_tracker now client_ip).1
     :: (serve_all within_window (check_rate_limit within_window rate_tracker now client_ip).2 rest).1,
   (serve_all within_window (check_rate_limit within_window rate_tracker now client_ip).2 rest).2).
Proof.
  simpl. destruct (check_rate_limit within_window rate_tracker now client_ip) as [a t]. simpl.
  by destruct (serve_all within_window t rest).
Qed.

(** X11. Starting from the empty tracker, whatever the requests and their
    times, no client ever has more than [RATE_LIMIT] recorded requests. *)
Theorem rate_tracker_stays_bounded (requests : list (time * string))
        (client_ip : string) (l : list time) :
  (serve_all within_window ∅ requests).2 !! client_ip = Some l -> (length l <= RATE_LIMIT)%nat.
Proof.
  assert (forall t, bounded t -> bounded (serve_all within_window t requests).2) as H.
  { induction requests as [|[now ip] rest IH]; intros t Ht; [exact Ht|].
    rewrite serve_all_cons. simpl. apply IH. by apply check_rate_limit_bounded. }
  apply H. intros ip l0. by rewrite lookup_empty.
Qed.

(** X12. A call for one client leaves the record of every other client as
    it was, whether the call is allowed or not. *)
Theorem check_rate_limit_frame (rate_tracker : gmap string (list time))
        (now : time) (client_ip other : string) :
  other <> client_ip ->
  (check_rate_limit within_window rate_tracker now client_ip).2 !! other = rate_tracker !! other.
Proof. apply check_rate_limit_other. Qed.

(** The requests recorded for a client are at most the requests it made. *)
Lemma serve_all_count (requests : list (time * string)) (t : gmap string (list time))
      (client_ip : string) :
  (length (default [] ((serve_all within_window t requests).2 !! client_ip))
   <= length (default [] (t !! client_ip))
      + length (filter (fun r => r.2 = client_ip) requests))%nat.
Proof.
  revert t. induction requests as [|[now ip] rest IH]; intros t; [simpl; lia|].
  rewrite serve_all_cons. simpl. etrans; [apply IH|].
  rewrite filter_cons. simpl.
  destruct (decide (ip = client_ip)) as [->|Hne].
  - destruct (check_rate_limit_lookup t now client_ip) as [Hl _]. rewrite Hl. simpl.
    pose proof (sublist_length _ _
      (sublist_filter (fun x => within_window now x = true)
                      (default [] (t !! client_ip)))) as Hs.
    destruct (check_rate_limit within_window t now client_ip).1; [rewrite length_app|]; simpl; lia.
  - rewrite check_rate_limit_other by done. lia.
Qed.

(** X13. Starting from the empty tracker, a client that has made fewer
    than [RATE_LIMIT] requests so far is allowed, whatever the times and
    whatever the other clients did. *)
Theorem allowed_below_limit (requests : list (time * string))
        (now : time) (client_ip : string) :
  (length (filter (fun r => r.2 = client_ip) requests) < RATE_LIMIT)%nat ->
  (check_rate_limit within_window (serve_all within_window ∅ requests).2 now client_ip).1 = true.
Proof.
  intros Hfew.
  destruct (check_rate_limit_lookup (serve_all within_window ∅ requests).2 now client_ip) as [_ Hd].
  apply Hd. eapply Nat.le_lt_trans; [apply sublist_length, sublist_filter|].
  eapply Nat.le_lt_trans; [apply serve_all_count|].
  rewrite lookup_empty. simpl. lia.
Qed.

Lemma filter_all (P : time -> Prop) `{!forall x, Decision (P x)} (l : list time) :
  Forall P l -> filter P l = l.
Proof.
  induction 1 as [|x l Hx _ IH]; [done|].
  rewrite filter_cons, IH. by destruct (decide (P x)).
Qed.

(** A burst: requests of one client, each within the window of all the
    later ones, on top of the [l] already recorded. *)
Lemma serve_burst (times : list time) (t : gmap string (list time))
      (client_ip : string) (l : list time) :
  default [] (t !! client_ip) = l ->
  StronglySorted (fun a b => within_window b a = true) (l ++ times) ->
  (serve_all within_window t (map (fun now => (now, client_ip)) times)).1
  = map (fun i => bool_decide (length l + i < RATE_LIMIT)%nat) (seq 0 (length times)).
Proof.
  revert t l. induction times as [|now times IH]; intros t l Hl Hs; [done|].
  change (map (fun now0 => (now0, client_ip)) (now :: times))
    with ((now, client_ip) :: map (fun now0 => (now0, client_ip)) times).
  rewrite serve_all_cons. simpl.
  destruct (check_rate_limit_lookup t now client_ip) as [Hlook Hd].
  rewrite Hl in Hlook, Hd.
  pose proof Hs as (Hcross & Hsl & Hst)%StronglySorted_app.
  assert (filter (fun x => within_window now x = true) l = l) as Hall.
  { apply filter_all, Forall_forall. intros x Hx. apply (Hcross x now Hx). left. }
  rewrite Hall in Hlook, Hd.
  rewrite <- seq_shift, map_map.
  destruct (check_rate_limit within_window t now client_ip).1 eqn:E.
  - f_equal.
    + symmetry. apply bool_decide_eq_true. rewrite Nat.add_0_r. by apply Hd.
    + rewrite (IH _ (l ++ [now])%list).
      * apply map_ext. intros i. rewrite length_app. simpl.
        apply bool_decide_ext. lia.
      * by rewrite Hlook.
      * by rewrite <- app_assoc.
  - f_equal.
    + symmetry. apply bool_decide_eq_false. rewrite Nat.add_0_r.
      intros Hlt. apply Hd in Hlt. congruence.
    + assert (RATE_LIMIT <= length l)%nat as Hfull.
      { destruct (Nat.le_gt_cases RATE_LIMIT (length l)) as [|Hlt]; [done|].
        apply Hd in Hlt. congruence. }
      rewrite (IH _ l).
      * apply map_ext. intros i.
        rewrite !bool_decide_eq_false_2 by lia. done.
      * by rewrite Hlook.
      * apply StronglySorted_app. split; [|split; [exact Hsl|]].
        -- intros x1 x2 Hx1 Hx2. apply Hcross; [done | by right].
        -- by apply StronglySorted_cons in Hst as [_ ?].
Qed.

(** X14. A burst: when a client without a record makes requests, each
    within the window of all the later ones, exactly the first
    [RATE_LIMIT] of them are allowed and every later one is refused. *)
Theorem burst_allows_first_rate_limit (times : list time)
        (rate_tracker : gmap string (list time)) (client_ip : string) :
  rate_tracker !! client_ip = None ->
  StronglySorted (fun a b => within_window b a = true) times ->
  (serve_all within_window rate_tracker (map (fun now => (now, client_ip)) times)).1
  = map (fun i => bool_decide (i < RATE_LIMIT)%nat) (seq 0 (length times)).
Proof.
  intros Hnone Hs. apply (serve_burst times rate_tracker client_ip []).
  - by rewrite Hnone.
  - exact Hs.
Qed.

End RateLimitFacts.

Lemma rate_tracker_stays_bounded_witness :
  (length [100; 200; 3650]%Z <= RATE_LIMIT)%nat.
Proof.
  apply (rate_tracker_stays_bounded within_hour
           [(0, "10.0.0.1"); (100, "10.0.0.1"); (150, "10.0.0.2");
            (200, "10.0.0.1"); (3650, "10.0.0.1")] "10.0.0.1").
  vm_compute. reflexivity.
Defined.

Lemma check_rate_limit_frame_witness :
  (check_rate_limit within_hour {[ "10.0.0.2" := [5] ]} 7000 "10.0.0.1").2 !! "10.0.0.2"
  = Some [5].
Proof.
  rewrite (check_rate_limit_frame within_hour {[ "10.0.0.2" := [5] ]} 7000
             "10.0.0.1" "10.0.0.2"); [reflexivity | discriminate].
Defined.

Lemma allowed_below_limit_witness :
  (check_rate_limit within_hour
     (serve_all within_hour ∅ [(0, "10.0.0.1"); (1, "10.0.0.2"); (2, "10.0.0.1")]).2
     3 "10.0.0.1").1 = true.
Proof.
  apply (allowed_below_limit within_hour
           [(0, "10.0.0.1"); (1, "10.0.0.2"); (2, "10.0.0.1")] 3 "10.0.0.1").
  vm_compute. lia.
Defined.

Lemma burst_allows_first_rate_limit_witness :
  (serve_all within_hour ∅ (map (fun now => (now, "10.0.0.1")) (seqZ 0 32))).1
  = (replicate 30 true ++ [false; false])%list.
Proof.
  rewrite (burst_allows_first_rate_limit within_hour (seqZ 0 32) ∅ "10.0.0.1").
  - reflexivity.
  - reflexivity.
  - apply (bool_decide_unpack _). vm_compute. exact I.
Defined.

(** ** Selecting pages of a document *)

Section PagesWhere.
Context {page : Type}.
Implicit Types (source : list page) (P Q : Z -> Prop).

Lemma pages_where_lookup P `{!forall p, Decision (P p)} source (first : Z) :
  (fun p => source !! Z.to_nat (p - first))
    <$> filter P (seqZ first (Z.of_nat (length source)))
  = Some <$> pages_where P first source.
Proof.
  revert first. induction source as [|x rest IH]; intros first; [done|].
  rewrite seqZ_cons by (simpl; lia).
  replace (Z.pred (Z.of_nat (length (x :: rest)))) with (Z.of_nat (length rest))
    by (simpl; lia).
  assert ((fun p => (x :: rest) !! Z.to_nat (p - first))
            <$> filter P (seqZ (Z.succ first) (Z.of_nat (length rest)))
          = Some <$> pages_where P (first + 1) rest) as Htail.
  { rewrite <- IH. apply Forall_fmap_ext_1, Forall_forall.
    intros p [_ Hp%elem_of_seqZ]%list_elem_of_filter.
    replace (Z.to_nat (p - first)) with (S (Z.to_nat (p - Z.succ first))) by lia.
    replace (first + 1) with (Z.succ first) by lia. done. }
  rewrite filter_cons. simpl. destruct (decide (P first)).
  - rewrite fmap_cons, Htail. by replace (first - first) with 0 by lia.
  - exact Htail.
Qed.

Lemma pages_where_sublist P `{!forall p, Decision (P p)} source (first : Z) :
  pages_where P first source `sublist_of` source.
Proof.
  revert first. induction source as [|x rest IH]; intros first; simpl; [done|].
  destruct (decide (P first)); [by apply sublist_skip | by apply sublist_cons].
Qed.

Lemma pages_where_partition P `{!forall p, Decision (P p)} source (first : Z) :
  pages_where P first source ++ pages_where (fun p => ~ P p) first source ≡ₚ source.
Proof.
  revert first. induction source as [|x rest IH]; intros first; simpl; [done|].
  destruct (decide (P first)), (decide (~ P first)); try tauto.
  - simpl. by rewrite IH.
  - rewrite <- Permutation_middle. by rewrite IH.
Qed.

Lemma sublist_same_length (l1 l2 : list page) :
  l1 `sublist_of` l2 -> length l1 = length l2 -> l1 = l2.
Proof.
  induction 1 as [|x l1 l2 Hsub IH|x l1 l2 Hsub IH]; simpl; intros Hlen.
  - done.
  - f_equal. apply IH. lia.
  - apply sublist_length in Hsub. lia.
Qed.

Lemma pages_where_ext P Q `{!forall p, Decision (P p)} `{!forall p, Decision (Q p)}
      source (first : Z) :
  (forall p, first <= p < first + Z.of_nat (length source) -> P p <-> Q p) ->
  pages_where P first source = pages_where Q first source.
Proof.
  revert first. induction source as [|x rest IH]; intros first Hext; simpl; [done|].
  rewrite (IH (first + 1)) by (intros p Hp; apply Hext; simpl; lia).
  assert (P first <-> Q first) as Hf by (apply Hext; simpl; lia).
  destruct (decide (P first)), (decide (Q first)); tauto.
Qed.

End PagesWhere.

(** ** The keep-list as the pages to copy *)

Lemma parse_pagespec_bounds (spec : string) (total_pages : Z) (S : list Z) :
  parse_pagespec spec total_pages = Ok S ->
  Forall (fun p => 1 <= p <= total_pages) S /\ StronglySorted Z.lt S.
Proof.
  intros H. split.
  - apply parse_pagespec_members in H as [Hmem Hall].
    apply Forall_forall. intros p Hp%Hmem. eapply Forall_forall in Hall; eauto.
  - apply parse_pagespec_ok_inv in H as (pages & _ & _ & _ & ->).
    apply sorted_increasing.
Qed.

Lemma pages_to_keep_delete (spec : string) (total_pages : Z) (S : list Z) :
  parse_pagespec spec total_pages = Ok S ->
  let keep := filter (fun p => p ∉ S) (Py.range 1 (total_pages + 1)) in
  pages_to_keep spec total_pages "delete" =
  match keep with
  | [] => Raise (RaisedPageSpecError CannotDeleteAllPages)
  | _ => Ok keep
  end.
Proof.
  intros H keep. unfold pages_to_keep. rewrite H. simpl.
  set (keep_pages := (list_to_set (Py.range 1 (total_pages + 1)) : gset Z)
                       ∖ list_to_set S).
  assert (forall p, p ∈ keep_pages <-> p ∈ keep) as Hkeep.
  { intros p. unfold keep_pages, keep.
    rewrite list_elem_of_filter, elem_of_difference, !elem_of_list_to_set. tauto. }
  destruct (decide (keep_pages = ∅)) as [He|Hne].
  - destruct keep as [|x k]; [done|].
    assert (x ∈ keep_pages) as Hx by (apply Hkeep; left).
    rewrite He in Hx. by apply not_elem_of_empty in Hx.
  - assert (Py.sorted keep_pages = keep) as ->.
    { apply increasing_unique; [apply sorted_increasing | |].
      - apply StronglySorted_filter, range_increasing.
      - intros p. by rewrite sorted_elem_of. }
    destruct keep as [|x k] eqn:E; [|done].
    destruct (set_choose_L _ Hne) as [x Hx]. apply Hkeep in Hx.
    by apply not_elem_of_nil in Hx.
Qed.

(** An increasing list of pages of the document is the list of the
    positions it contains. *)
Lemma increasing_as_filter (n : Z) (L : list Z) :
  StronglySorted Z.lt L -> Forall (fun p => 1 <= p <= n) L ->
  L = filter (fun p => p ∈ L) (seqZ 1 n).
Proof.
  intros Hs Hb. apply increasing_unique; [exact Hs | |].
  - replace n with ((n + 1) - 1) by lia. apply StronglySorted_filter, range_increasing.
  - intros p. rewrite list_elem_of_filter, elem_of_seqZ. split; [|tauto].
    intros Hp. split; [exact Hp|]. eapply Forall_forall in Hb; [|exact Hp]. lia.
Qed.

Section PikepdfFacts.
Context {page : Type}.
Context (pikepdf_open : bytes -> result pikepdf_failure (list page)).
Context (pikepdf_save : list page -> result string bytes).

Lemma copy_pages_in_range (source_pdf : list page) (L : list Z) (output_pdf : list page) :
  Forall (fun p => 1 <= p <= Z.of_nat (length source_pdf)) L ->
  exists r, for_each (copy_page source_pdf) output_pdf L = Ok (output_pdf ++ r)%list /\
            Some <$> r = (fun p => source_pdf !! Z.to_nat (p - 1)) <$> L.
Proof.
  intros Hb. revert output_pdf.
  induction Hb as [|p L Hp _ IH]; intros output_pdf; cbn [for_each].
  - exists []. by rewrite app_nil_r.
  - destruct (lookup_lt_is_Some_2 source_pdf (Z.to_nat (p - 1))) as [x Hx]; [lia|].
    assert (copy_page source_pdf output_pdf p = Ok (output_pdf ++ [x])%list) as ->.
    { unfold copy_page, page_at.
      destruct (Z.ltb_spec (p - 1) 0) as [|_]; [lia|]. by rewrite Hx. }
    destruct (IH (output_pdf ++ [x])%list) as (r & Hr & Hmap).
    exists (x :: r). rewrite Hr, <- app_assoc. split; [done|].
    rewrite !fmap_cons, Hmap, Hx. done.
Qed.

Lemma copy_keep_list (source_pdf : list page) (L : list Z) :
  StronglySorted Z.lt L ->
  Forall (fun p => 1 <= p <= Z.of_nat (length source_pdf)) L ->
  for_each (copy_page source_pdf) [] L = Ok (pages_where (fun p => p ∈ L) 1 source_pdf) /\
  length (pages_where (fun p => p ∈ L) 1 source_pdf) = length L.
Proof.
  intros Hs Hb. destruct (copy_pages_in_range source_pdf L [] Hb) as (r & Hr & Hmap).
  pose proof (f_equal (fmap (fun p => source_pdf !! Z.to_nat (p - 1)))
                      (increasing_as_filter _ L Hs Hb)) as HL.
  rewrite pages_where_lookup in HL. rewrite HL in Hmap.
  apply (list_fmap_eq_inj Some) in Hmap; [|apply _].
  subst r. split; [exact Hr|].
  apply (f_equal length) in HL. by rewrite !length_fmap in HL.
Qed.

Lemma open_pdf_unfold (source : bytes) :
  open_pdf pikepdf_open source =
  if is_valid_pdf source then
    match pikepdf_open source with
    | Ok pdf => Ok pdf
    | Raise (PdfError msg) => Raise (CannotOpenPDF msg)
    | Raise (OtherError msg) => Raise (ErrorOpeningPDF msg)
    end
  else Raise (ErrorOpeningPDF "File is not a valid PDF").
Proof.
  unfold open_pdf. rewrite is_valid_pdf_take by lia.
  by destruct (is_valid_pdf source).
Qed.

(** X16. Content that [validate_upload_file] accepts always passes the
    header check of [open_pdf]: opening it gives what the library gives. *)
Theorem accepted_upload_passes_header_check (file : UploadFile) (content : bytes) :
  validate_upload_file file = Ok content ->
  open_pdf pikepdf_open content =
  match pikepdf_open content with
  | Ok pdf => Ok pdf
  | Raise (PdfError msg) => Raise (CannotOpenPDF msg)
  | Raise (OtherError msg) => Raise (ErrorOpeningPDF msg)
  end.
Proof.
  unfold validate_upload_file. rewrite validate_header_check.
  destruct (_ <? _); [discriminate|]. destruct (_ =? _)%nat; [discriminate|].
  destruct (is_valid_pdf (upload_content file)) eqn:Hv; [|discriminate].
  intros [= <-]. by rewrite open_pdf_unfold, Hv.
Qed.

Lemma extract_pages_result (file : bytes) (spec : string) (source : list page)
      (S : list Z) :
  open_pdf pikepdf_open file = Ok source ->
  parse_pagespec spec (Z.of_nat (length source)) = Ok S ->
  extract_pages pikepdf_open pikepdf_save file spec
  = saved ErrorExtractingPages (pikepdf_save (pages_where (fun p => p ∈ S) 1 source)) /\
  length (pages_where (fun p => p ∈ S) 1 source) = length S.
Proof.
  intros Ho Hp. destruct (parse_pagespec_bounds _ _ _ Hp) as [Hb Hs].
  destruct (copy_keep_list source S Hs Hb) as [Hcopy Hlen].
  split; [|exact Hlen].
  unfold extract_pages. rewrite Ho. cbn zeta. unfold pages_to_keep. rewrite Hp.
  simpl. by rewrite Hcopy.
Qed.

Lemma delete_pages_result (file : bytes) (spec : string) (source : list page)
      (S : list Z) :
  open_pdf pikepdf_open file = Ok source ->
  parse_pagespec spec (Z.of_nat (length source)) = Ok S ->
  delete_pages pikepdf_open pikepdf_save file spec
  = match pages_where (fun p => p ∉ S) 1 source with
    | [] => Raise (RaisedSpecError CannotDeleteAllPages)
    | kept => saved ErrorDeletingPages (pikepdf_save kept)
    end.
Proof.
  intros Ho Hp. unfold delete_pages. rewrite Ho. cbn zeta.
  rewrite (pages_to_keep_delete _ _ _ Hp). cbn zeta.
  set (keep := filter (fun p => p ∉ S) (Py.range 1 (Z.of_nat (length source) + 1))).
  assert (StronglySorted Z.lt keep) as Hs
    by apply StronglySorted_filter, range_increasing.
  assert (forall p, p ∈ keep <-> 1 <= p <= Z.of_nat (length source) /\ p ∉ S) as Hmem.
  { intros p. unfold keep. rewrite list_elem_of_filter, elem_of_range.
    split; intros [? ?]; split; first [assumption | lia]. }
  assert (Forall (fun p => 1 <= p <= Z.of_nat (length source)) keep) as Hb.
  { apply Forall_forall. intros p Hp'. by apply Hmem in Hp' as [? _]. }
  destruct (copy_keep_list source keep Hs Hb) as [Hcopy Hlen].
  assert (pages_where (fun p => p ∈ keep) 1 source
          = pages_where (fun p => p ∉ S) 1 source) as Hext.
  { apply pages_where_ext. intros p Hp'. rewrite Hmem. split; [tauto|].
    intros Hn. split; [lia | exact Hn]. }
  rewrite Hext in Hcopy, Hlen.
  destruct keep as [|k keep'] eqn:E.
  - by destruct (pages_where (fun p => p ∉ S) 1 source).
  - rewrite Hcopy.
    destruct (pages_where (fun p => p ∉ S) 1 source); [discriminate Hlen | done].
Qed.

(** X17. When the document opens and the specification parses, no
    [IndexError] and no invalid mode can arise in [extract_pages]: it
    saves the pages at the named positions, each once and in document
    order, as many as the specification names. *)
Theorem extract_pages_copies_named_pages (file : bytes) (spec : string)
        (source : list page) (S : list Z) :
  open_pdf pikepdf_open file = Ok source ->
  parse_pagespec spec (Z.of_nat (length source)) = Ok S ->
  let extracted := pages_where (fun p => p ∈ S) 1 source in
  extract_pages pikepdf_open pikepdf_save file spec = saved ErrorExtractingPages (pikepdf_save extracted) /\
  extracted `sublist_of` source /\
  length extracted = length S.
Proof.
  intros Ho Hp extracted.
  destruct (extract_pages_result file spec source S Ho Hp) as [Hr Hl].
  split; [exact Hr|]. split; [apply pages_where_sublist | exact Hl].
Qed.

(** X18. When the document opens and the specification parses,
    [delete_pages] saves the pages at the positions the specification
    does not name, in document order, and raises "Cannot delete all
    pages" when there is none; the number of pages kept and the number of
    pages named add up to the size of the document. *)
Theorem delete_pages_keeps_other_pages (file : bytes) (spec : string)
        (source : list page) (S : list Z) :
  open_pdf pikepdf_open file = Ok source ->
  parse_pagespec spec (Z.of_nat (length source)) = Ok S ->
  let kept := pages_where (fun p => p ∉ S) 1 source in
  (kept = [] ->
   delete_pages pikepdf_open pikepdf_save file spec = Raise (RaisedSpecError CannotDeleteAllPages)) /\
  (kept <> [] ->
   delete_pages pikepdf_open pikepdf_save file spec = saved ErrorDeletingPages (pikepdf_save kept)) /\
  kept `sublist_of` source /\
  (length kept + length S = length source)%nat.
Proof.
  intros Ho Hp kept.
  pose proof (delete_pages_result file spec source S Ho Hp) as Hr. fold kept in Hr.
  destruct (extract_pages_result file spec source S Ho Hp) as [_ Hl].
  pose proof (pages_where_partition (fun p => p ∈ S) source 1) as Hperm.
  apply Permutation_length in Hperm. rewrite length_app, Hl in Hperm.
  split; [intros E; by rewrite E in Hr|].
  split; [intros Hne; by destruct kept|].
  split; [apply pages_where_sublist|]. unfold kept. lia.
Qed.

(** X19. With one specification, the pages [extract_pages] saves and the
    pages [delete_pages] saves (none when it raises "Cannot delete all
    pages") are together the pages of the document, each once: the first
    are the pages the copy loop takes from the extract keep-list, at the
    named positions, the second the pages at the other positions. *)
Theorem extract_and_delete_split_document (file : bytes) (spec : string)
        (source : list page) (S : list Z) :
  open_pdf pikepdf_open file = Ok source ->
  parse_pagespec spec (Z.of_nat (length source)) = Ok S ->
  let extracted := pages_where (fun p => p ∈ S) 1 source in
  let kept := pages_where (fun p => p ∉ S) 1 source in
  for_each (copy_page source) [] S = Ok extracted /\
  extract_pages pikepdf_open pikepdf_save file spec
  = saved ErrorExtractingPages (pikepdf_save extracted) /\
  delete_pages pikepdf_open pikepdf_save file spec
  = match kept with
    | [] => Raise (RaisedSpecError CannotDeleteAllPages)
    | _ => saved ErrorDeletingPages (pikepdf_save kept)
    end /\
  (extracted ++ kept)%list ≡ₚ source /\
  (kept = [] -> extracted = source).
Proof.
  intros Ho Hp extracted kept.
  destruct (parse_pagespec_bounds _ _ _ Hp) as [Hb Hs].
  destruct (copy_keep_list source S Hs Hb) as [Hcopy Hlen].
  destruct (extract_pages_result file spec source S Ho Hp) as [He _].
  pose proof (delete_pages_result file spec source S Ho Hp) as Hd.
  pose proof (pages_where_partition (fun p => p ∈ S) source 1) as Hperm.
  split; [exact Hcopy|]. split; [exact He|].
  split; [rewrite Hd; unfold kept; by destruct (pages_where (fun p => p ∉ S) 1 source)|].
  split; [exact Hperm|].
  intros Hk. apply sublist_same_length; [apply pages_where_sublist|].
  apply Permutation_length in Hperm. unfold kept in Hk.
  rewrite length_app, Hk in Hperm. simpl in Hperm. unfold extracted. lia.
Qed.

(** X20. The document is examined before the specification: when it does
    not open, [extract_pages] and [delete_pages] raise a [PDFError]
    whatever the specification. They raise a [PageSpecError] exactly when
    the document opens and [pages_to_keep], called with the number of its
    pages, raises that error; the error is passed on unchanged. *)
Theorem page_spec_errors_pass_through (file : bytes) (spec : string) :
  (forall err, open_pdf pikepdf_open file = Raise err ->
               extract_pages pikepdf_open pikepdf_save file spec = Raise (RaisedPDFError (OfInvalidPDF err)) /\
               delete_pages pikepdf_open pikepdf_save file spec = Raise (RaisedPDFError (OfInvalidPDF err))) /\
  (forall e, extract_pages pikepdf_open pikepdf_save file spec = Raise (RaisedSpecError e) <->
             exists source, open_pdf pikepdf_open file = Ok source /\
               pages_to_keep spec (Z.of_nat (length source)) "extract"
               = Raise (RaisedPageSpecError e)) /\
  (forall e, delete_pages pikepdf_open pikepdf_save file spec = Raise (RaisedSpecError e) <->
             exists source, open_pdf pikepdf_open file = Ok source /\
               pages_to_keep spec (Z.of_nat (length source)) "delete"
               = Raise (RaisedPageSpecError e)).
Proof.
  unfold extract_pages, delete_pages.
  destruct (open_pdf pikepdf_open file) as [source|err0] eqn:Ho.
  - split; [discriminate|]. cbn zeta. split; intros e.
    + destruct (pages_to_keep spec _ "extract") as [keep|[e'|m]] eqn:Hk.
      * split; [|by intros (s0 & [= <-] & Hs0); rewrite Hk in Hs0].
        destruct (for_each _ _ _); [|discriminate].
        by destruct (pikepdf_save _).
      * split; [intros [= <-]; by exists source|].
        intros (s0 & [= <-] & Hs0). rewrite Hk in Hs0. by injection Hs0 as <-.
      * split; [discriminate|].
        intros (s0 & [= <-] & Hs0). rewrite Hk in Hs0. discriminate.
    + destruct (pages_to_keep spec _ "delete") as [keep|[e'|m]] eqn:Hk.
      * split; [|by intros (s0 & [= <-] & Hs0); rewrite Hk in Hs0].
        destruct (for_each _ _ _); [|discriminate].
        by destruct (pikepdf_save _).
      * split; [intros [= <-]; by exists source|].
        intros (s0 & [= <-] & Hs0). rewrite Hk in Hs0. by injection Hs0 as <-.
      * split; [discriminate|].
        intros (s0 & [= <-] & Hs0). rewrite Hk in Hs0. discriminate.
  - split; [by intros err [= <-]|].
    split; intros e; (split; [discriminate | by intros (s0 & ? & _)]).
Qed.

Lemma merge_loop_ok (files : list bytes) (sources : list (list page))
      (merged : list page) (k : nat) :
  Forall2 (fun f src => open_pdf pikepdf_open f = Ok src) files sources ->
  for_each (merge_file pikepdf_open) merged (imap (fun i x => (k + i, x)%nat) files)
  = Ok (merged ++ concat sources)%list.
Proof.
  intros H. revert merged k.
  induction H as [|f src files sources Hf _ IH]; intros merged k.
  - simpl. by rewrite app_nil_r.
  - rewrite imap_cons. cbn [for_each]. unfold merge_file at 1. rewrite Hf.
    rewrite (imap_ext _ (fun i x => (S k + i, x)%nat))
      by (intros i x _; simpl; f_equal; lia).
    rewrite IH. simpl. by rewrite <- app_assoc.
Qed.

(** X21. When every file opens, [merge_pdfs] saves the pages of all the
    files, file after file and in document order, so as many pages as the
    files have together; without files it raises "No files provided for
    merging". *)
Theorem merge_pdfs_concatenates (files : list bytes) (sources : list (list page)) :
  Forall2 (fun f src => open_pdf pikepdf_open f = Ok src) files sources ->
  merge_pdfs pikepdf_open pikepdf_save [] = Raise NoFilesProvided /\
  (files <> [] ->
   merge_pdfs pikepdf_open pikepdf_save files =
   match pikepdf_save (concat sources) with
   | Ok output => Ok output
   | Raise msg => Raise (ErrorSavingMerged msg)
   end) /\
  length (concat sources) = sum_list (length <$> sources).
Proof.
  intros H. split; [done|]. split.
  - intros Hne.
    assert (for_each (merge_file pikepdf_open) [] (enumerate files)
            = Ok (concat sources)) as Hloop
      by exact (merge_loop_ok files sources [] 0 H).
    unfold merge_pdfs. rewrite Hloop. by destruct files.
  - clear. induction sources as [|s0 ss IH]; simpl; [done|].
    by rewrite length_app, IH.
Qed.

(** X22. [merge_pdfs] stops at the first file that does not open: the
    error carries the 1-based position of that file and the reason, the
    files after it are not looked at and nothing is saved. *)
Theorem merge_pdfs_names_first_bad_file (good rest : list bytes) (bad : bytes)
        (e : InvalidPDFError) :
  Forall (fun f => exists src, open_pdf pikepdf_open f = Ok src) good ->
  open_pdf pikepdf_open bad = Raise e ->
  merge_pdfs pikepdf_open pikepdf_save (good ++ bad :: rest) = Raise (FileInvalid (Z.of_nat (length good) + 1) e).
Proof.
  intros Hgood Hbad.
  assert (exists sources, Forall2 (fun f src => open_pdf pikepdf_open f = Ok src) good sources)
    as [sources Hs].
  { induction Hgood as [|f good [src Hsrc] _ [sources IH]].
    - by exists [].
    - exists (src :: sources). by constructor. }
  assert (for_each (merge_file pikepdf_open) [] (enumerate good)
          = Ok (concat sources)) as Hloop
    by exact (merge_loop_ok good sources [] 0 Hs).
  assert (for_each (merge_file pikepdf_open) [] (enumerate (good ++ bad :: rest))
          = Raise (FileInvalid (Z.of_nat (length good) + 1) e)) as Hfail.
  { unfold enumerate in *. rewrite imap_app, for_each_app, Hloop, imap_cons.
    cbn [for_each]. unfold merge_file at 1. rewrite Hbad.
    by rewrite Nat.add_0_r. }
  unfold merge_pdfs. rewrite Hfail. by destruct good.
Qed.

End PikepdfFacts.

Lemma accepted_upload_passes_header_check_witness :
  open_pdf toy_open [x25; x50; x44; x46; x2d; x41; x42] = Ok [x41; x42].
Proof.
  rewrite (accepted_upload_passes_header_check toy_open
             {| upload_filename := Some "a.pdf"; upload_content_type := None;
                upload_content := [x25; x50; x44; x46; x2d; x41; x42] |}
             [x25; x50; x44; x46; x2d; x41; x42]); reflexivity.
Defined.

Lemma extract_pages_copies_named_pages_witness :
  extract_pages toy_open toy_save
    [x25; x50; x44; x46; x2d; x41; x42; x43; x44; x45] "4,1-2"
  = Ok [x25; x50; x44; x46; x2d; x41; x42; x44].
Proof.
  apply (extract_pages_copies_named_pages toy_open toy_save
           [x25; x50; x44; x46; x2d; x41; x42; x43; x44; x45] "4,1-2"
           [x41; x42; x43; x44; x45] [1; 2; 4]).
  - reflexivity.
  - vm_compute. reflexivity.
Defined.

Lemma delete_pages_keeps_other_pages_witness :
  delete_pages toy_open toy_save
    [x25; x50; x44; x46; x2d; x41; x42; x43; x44; x45] "4,1-2"
  = Ok [x25; x50; x44; x46; x2d; x43; x45].
Proof.
  pose proof (delete_pages_keeps_other_pages toy_open toy_save
                [x25; x50; x44; x46; x2d; x41; x42; x43; x44; x45] "4,1-2"
                [x41; x42; x43; x44; x45] [1; 2; 4]
                ltac:(reflexivity) ltac:(vm_compute; reflexivity))
    as (_ & H & _).
  rewrite H; [reflexivity | discriminate].
Defined.

Lemma extract_and_delete_split_document_witness :
  extract_pages toy_open toy_save [x25; x50; x44; x46; x2d; x41; x42; x43] "2"
  = Ok [x25; x50; x44; x46; x2d; x42] /\
  delete_pages toy_open toy_save [x25; x50; x44; x46; x2d; x41; x42; x43] "2"
  = Ok [x25; x50; x44; x46; x2d; x41; x43] /\
  ([x42] ++ [x41; x43])%list ≡ₚ [x41; x42; x43].
Proof.
  pose proof (extract_and_delete_split_document toy_open toy_save
                [x25; x50; x44; x46; x2d; x41; x42; x43] "2" [x41; x42; x43] [2]
                ltac:(reflexivity) ltac:(vm_compute; reflexivity))
    as (_ & He & Hd & Hp & _).
  split; [exact He|]. split; [exact Hd | exact Hp].
Defined.

Lemma page_spec_errors_pass_through_witness :
  delete_pages toy_open toy_save [x25; x50; x44; x46; x2d; x41; x42] "1-2"
  = Raise (RaisedSpecError CannotDeleteAllPages) /\
  extract_pages toy_open toy_save [x50; x4b; x03; x04; x14] "1"
  = Raise (RaisedPDFError (OfInvalidPDF (ErrorOpeningPDF "File is not a valid PDF"))).
Proof.
  split.
  - apply (proj2 (proj2 (page_spec_errors_pass_through toy_open toy_save
                           [x25; x50; x44; x46; x2d; x41; x42] "1-2"))).
    exists [x41; x42]. split; [reflexivity | vm_compute; reflexivity].
  - apply (proj1 (page_spec_errors_pass_through toy_open toy_save
                    [x50; x4b; x03; x04; x14] "1")).
    reflexivity.
Defined.

Lemma merge_pdfs_concatenates_witness :
  merge_pdfs toy_open toy_save
    [[x25; x50; x44; x46; x2d; x41; x42]; [x25; x50; x44; x46; x2d; x43]]
  = Ok [x25; x50; x44; x46; x2d; x41; x42; x43].
Proof.
  pose proof (merge_pdfs_concatenates toy_open toy_save
                [[x25; x50; x44; x46; x2d; x41; x42]; [x25; x50; x44; x46; x2d; x43]]
                [[x41; x42]; [x43]]) as H.
  destruct H as (_ & H & _).
  - repeat constructor.
  - rewrite H; [reflexivity | discriminate].
Defined.

Lemma merge_pdfs_names_first_bad_file_witness :
  merge_pdfs toy_open toy_save
    [[x25; x50; x44; x46; x2d; x41]; [x50; x4b; x03; x04; x14]; [x00]]
  = Raise (FileInvalid 2 (ErrorOpeningPDF "File is not a valid PDF")).
Proof.
  apply (merge_pdfs_names_first_bad_file toy_open toy_save
           [[x25; x50; x44; x46; x2d; x41]] [[x00]] [x50; x4b; x03; x04; x14]).
  - constructor; [by exists [x41] | constructor].
  - reflexivity.
Defined.

(** ** More on [parse_pagespec] and [pages_to_keep] *)

Lemma parse_part_trimmed (total_pages : Z) (pages : gset Z) (part : string) :
  parse_part total_pages pages (Py.strip part) = parse_part total_pages pages part.
Proof. unfold parse_part. by rewrite strip_idempotent. Qed.

Lemma parse_parts_named_tokens (total_pages : Z) (parts : list string) (pages : gset Z) :
  for_each (parse_part total_pages) pages parts
  = for_each (parse_part total_pages) pages
             (filter (fun t => t <> "") (Py.strip <$> parts)).
Proof.
  revert pages. induction parts as [|part parts IH]; intros pages; [done|].
  rewrite fmap_cons, filter_cons. cbn [for_each].
  destruct (decide (Py.strip part <> "")) as [Hne|He].
  - cbn [for_each]. rewrite parse_part_trimmed.
    destruct (parse_part total_pages pages part); [apply IH | done].
  - apply dec_stable in He. rewrite parse_part_blank by done. apply IH.
Qed.

(** X23. The result of [parse_pagespec] depends on the specification only
    through its non-blank tokens, trimmed: white space around tokens and
    empty tokens (doubled, leading or trailing commas) change nothing. *)
Theorem parse_pagespec_depends_on_named_tokens (spec1 spec2 : string) (total_pages : Z) :
  ~ whitespace_only spec1 -> ~ whitespace_only spec2 ->
  named_tokens spec1 = named_tokens spec2 ->
  parse_pagespec spec1 total_pages = parse_pagespec spec2 total_pages.
Proof.
  intros H1 H2 Ht. rewrite !parse_pagespec_not_blank by done.
  rewrite (parse_parts_named_tokens _ (tokens spec1)).
  rewrite (parse_parts_named_tokens _ (tokens spec2)).
  unfold named_tokens in Ht. by rewrite Ht.
Qed.

Lemma parse_pagespec_depends_on_named_tokens_witness :
  parse_pagespec " ,1 ,, 3 - 5 ," 9 = parse_pagespec "1,3 - 5" 9.
Proof.
  apply parse_pagespec_depends_on_named_tokens;
    [discriminate | discriminate | reflexivity].
Defined.

Lemma parse_part_longer (n n' : Z) (pages : gset Z) (part : string) :
  n <= n' ->
  match parse_part n pages part with
  | Ok pages' => parse_part n' pages part = Ok pages'
  | Raise e => ~ exceeds_total e -> parse_part n' pages part = Raise e
  end.
Proof.
  intros Hle. destruct (parse_part n pages part) as [pages'|e] eqn:H.
  - apply parse_part_ok_inv in H
      as [[Hb ->] | [(page & Hn & Hp & ->) | (start & stop & Hn & Hp & ->)]].
    + by apply parse_part_blank.
    + rewrite (parse_part_page _ _ _ _ Hn).
      by destruct (Z.ltb_spec n' page); [lia|].
    + rewrite (parse_part_range _ _ _ _ _ Hn).
      by destruct (Z.ltb_spec n' stop); [lia|].
  - intros Hne. revert H. unfold parse_part.
    destruct (Py.is_empty (Py.strip part)); [done|].
    destruct (Py.contains "-" (Py.strip part)).
    + destruct (Py.split "-" (Py.strip part)) as [|a [|b [|? ?]]]; try done.
      destruct (Py.is_empty (Py.strip a) || Py.is_empty (Py.strip b)); [done|].
      destruct (Py.int (Py.strip a)) as [start|]; [|done].
      destruct (Py.int (Py.strip b)) as [stop|]; [|done].
      destruct ((start <=? 0) || (stop <=? 0)); [done|].
      destruct (stop <? start); [done|].
      intros (st & q & _ & Hr)%for_each_raise_inv. exfalso.
      unfold add_range_page in Hr. destruct (n <? q); [|discriminate].
      injection Hr as <-. by apply Hne.
    + destruct (Py.int (Py.strip part)) as [page|]; [|done].
      destruct (page <=? 0); [done|].
      destruct (n <? page); [|discriminate].
      intros [= <-]. exfalso. by apply Hne.
Qed.

Lemma parse_parts_longer (n n' : Z) (parts : list string) (pages : gset Z) :
  n <= n' ->
  match for_each (parse_part n) pages parts with
  | Ok pages' => for_each (parse_part n') pages parts = Ok pages'
  | Raise e => ~ exceeds_total e -> for_each (parse_part n') pages parts = Raise e
  end.
Proof.
  intros Hle. revert pages. induction parts as [|part parts IH]; intros pages; [done|].
  cbn [for_each]. pose proof (parse_part_longer n n' pages part Hle) as Hp.
  destruct (parse_part n pages part) as [pages1|e].
  - rewrite Hp. apply IH.
  - intros Hne. by rewrite (Hp Hne).
Qed.

(** X24. A specification accepted for a document is accepted, with the
    same pages, for every longer document. *)
Theorem parse_pagespec_longer_document (spec : string) (n n' : Z) (S : list Z) :
  parse_pagespec spec n = Ok S -> n <= n' -> parse_pagespec spec n' = Ok S.
Proof.
  intros H Hle. destruct (whitespace_only_dec spec) as [Hw|Hw].
  { rewrite parse_pagespec_blank in H by done. discriminate. }
  rewrite parse_pagespec_not_blank in * by done.
  pose proof (parse_parts_longer n n' (tokens spec) ∅ Hle) as Hl.
  destruct (for_each (parse_part n) ∅ (tokens spec)) as [pages|e]; [|discriminate].
  by rewrite Hl.
Qed.

Lemma parse_pagespec_longer_document_witness :
  parse_pagespec "2, 4-5" 12 = Ok [2; 4; 5].
Proof.
  apply (parse_pagespec_longer_document "2, 4-5" 5 12);
    [vm_compute; reflexivity | lia].
Defined.

(** X25. Only "Page ... exceeds total pages" depends on the size of the
    document: any other error raised for a document is raised, the same,
    for every longer document. *)
Theorem parse_pagespec_error_longer_document (spec : string) (n n' : Z)
        (e : PageSpecError) :
  parse_pagespec spec n = Raise e -> ~ exceeds_total e -> n <= n' ->
  parse_pagespec spec n' = Raise e.
Proof.
  intros H Hne Hle. destruct (whitespace_only_dec spec) as [Hw|Hw].
  { rewrite parse_pagespec_blank in * by done. done. }
  rewrite parse_pagespec_not_blank in * by done.
  pose proof (parse_parts_longer n n' (tokens spec) ∅ Hle) as Hl.
  destruct (for_each (parse_part n) ∅ (tokens spec)) as [pages|e0].
  - by rewrite Hl.
  - injection H as ->. by rewrite (Hl Hne).
Qed.

Lemma parse_pagespec_error_longer_document_witness :
  parse_pagespec "2, 5-4" 12 = Raise (RangeStartGreaterThanEnd 5 4).
Proof.
  apply (parse_pagespec_error_longer_document "2, 5-4" 5 12);
    [vm_compute; reflexivity | intros [] | lia].
Defined.

(** X26. With one specification, the keep-list of extract mode and the
    keep-list of delete mode have no page in common and together are the
    pages [1..total_pages], each once. *)
Theorem keep_lists_partition (spec : string) (total_pages : Z) (S K : list Z) :
  pages_to_keep spec total_pages "extract" = Ok S ->
  pages_to_keep spec total_pages "delete" = Ok K ->
  (S ++ K)%list ≡ₚ seqZ 1 total_pages /\
  (forall p, p ∈ S -> p ∉ K).
Proof.
  intros He Hd.
  assert (parse_pagespec spec total_pages = Ok S) as Hp.
  { unfold pages_to_keep in He.
    destruct (parse_pagespec spec total_pages); [|discriminate].
    simpl in He. congruence. }
  rewrite (pages_to_keep_delete _ _ _ Hp) in Hd. cbn zeta in Hd.
  unfold Py.range in Hd. replace (total_pages + 1 - 1) with total_pages in Hd by lia.
  assert (K = filter (fun p => p ∉ S) (seqZ 1 total_pages)) as ->.
  { destruct (filter _ _); [discriminate | congruence]. }
  destruct (parse_pagespec_bounds _ _ _ Hp) as [Hb Hs].
  split.
  - rewrite (increasing_as_filter total_pages S Hs Hb) at 1.
    apply filter_app_complement.
  - intros p Hin [Hnot _]%list_elem_of_filter. contradiction.
Qed.

Lemma keep_lists_partition_witness :
  ([2; 4; 5] ++ [1; 3; 6])%list ≡ₚ seqZ 1 6 /\
  (forall p, p ∈ [2; 4; 5] -> p ∉ [1; 3; 6]).
Proof.
  apply (keep_lists_partition "4-5,2" 6); vm_compute; reflexivity.
Defined.
